(** * DevToyNative smart paste: the format detector and the paste router

    A shallow embedding of [src/utils/smartPaste.js]: the table
    [DETECTION_PATTERNS], the list [DETECTION_ORDER], the function
    [detectFormat], the two display-name look-ups and the class
    [SmartPaste], together with the host primitives they call
    ([String.prototype.trim], [split], [RegExp.prototype.test], [atob],
    [JSON.parse], [parseInt], [Date.now], [Array.prototype.sort]).

    Strings are sequences of UTF-16 code units, as in ECMAScript.
    Completions are explicit: a host call either returns or throws, and a
    [try]/[catch] of the source is a [try_catch] of the model. *)

From Stdlib Require Import Ascii String List NArith ZArith QArith Bool Lia Lqa Arith.
Import ListNotations.

Set Implicit Arguments.
Set Warnings "-register-all".
Set Warnings "-automation".

Local Open Scope N_scope.

(** ** Strings *)

(** A code unit of a JavaScript string (an unsigned 16-bit number). *)
Definition code_unit := N.

(** A JavaScript string. *)
Definition jsstring := list code_unit.

Definition cu (a : ascii) : code_unit := N_of_ascii a.

(** The string literal of the source with the characters [s] (ASCII only). *)
Definition js (s : string) : jsstring := map cu (list_ascii_of_string s).

Definition in_range (lo hi c : code_unit) : bool := (lo <=? c) && (c <=? hi).

Fixpoint jsstring_eqb (a b : jsstring) : bool :=
  match a, b with
  | [], [] => true
  | x :: a', y :: b' => (x =? y) && jsstring_eqb a' b'
  | _, _ => false
  end.

(** [WhiteSpace] and [LineTerminator] of ECMAScript: what [trim] strips and
    what the class [\s] matches. *)
Definition is_line_terminator (c : code_unit) : bool :=
  (c =? 10) || (c =? 13) || (c =? 8232) || (c =? 8233).

Definition is_white_space (c : code_unit) : bool :=
  (c =? 9) || (c =? 11) || (c =? 12) || (c =? 32) || (c =? 160)
  || (c =? 5760) || in_range 8192 8202 c || (c =? 8239) || (c =? 8287)
  || (c =? 12288) || (c =? 65279).

Definition is_space (c : code_unit) : bool :=
  is_white_space c || is_line_terminator c.

Fixpoint trimStart (s : jsstring) : jsstring :=
  match s with
  | c :: s' => if is_space c then trimStart s' else s
  | [] => []
  end.

Definition trimEnd (s : jsstring) : jsstring := rev (trimStart (rev s)).

(** [String.prototype.trim]. *)
Definition trim (s : jsstring) : jsstring := trimEnd (trimStart s).

(** [s.split(sep)] for a separator of one code unit: the pieces between the
    occurrences of [sep], empty pieces included. *)
Fixpoint split (sep : code_unit) (s : jsstring) : list jsstring :=
  match s with
  | [] => [[]]
  | c :: s' =>
      if c =? sep then [] :: split sep s'
      else match split sep s' with
           | p :: ps => (c :: p) :: ps
           | [] => [[c]]
           end
  end.

(** [s.includes(c)] for a one-unit needle. *)
Definition includes (c : code_unit) (s : jsstring) : bool :=
  existsb (N.eqb c) s.

(** [s.replace(/a/g, b)] for single code units [a] and [b]. *)
Definition replace_all (a b : code_unit) (s : jsstring) : jsstring :=
  map (fun c => if c =? a then b else c) s.

(** ** Completions: normal return or thrown exception *)

Inductive exn : Type :=
  | SyntaxError
  | TypeError
  | InvalidCharacterError
  | HostError (tag : N).

Inductive completion (A : Type) : Type :=
  | Normal (a : A)
  | Throw (e : exn).
Arguments Normal {A} a.
Arguments Throw {A} e.

Definition bind {A B} (m : completion A) (k : A -> completion B) : completion B :=
  match m with
  | Normal a => k a
  | Throw e => Throw e
  end.

(** [try { body } catch { handler }]. *)
Definition try_catch {A} (body : completion A) (handler : exn -> completion A)
  : completion A :=
  match body with
  | Normal a => Normal a
  | Throw e => handler e
  end.

Declare Scope completion_scope.
Delimit Scope completion_scope with completion.
Notation "x <- m ;; k" := (bind m (fun x => k))
  (at level 61, m at next level, right associativity) : completion_scope.

(** ** Regular expressions of the source

    The five [pattern] fields are regular-expression literals without flags,
    all anchored at the start.  None uses a back-reference or a look-around,
    so [test] is membership in a regular language, decided here with
    derivatives. *)
Module Regex.

Inductive re : Type :=
  | Void
  | Eps
  | Class (p : code_unit -> bool)
  | Cat (r1 r2 : re)
  | Alt (r1 r2 : re)
  | Star (r : re).

(** [r+], [r?], [r{n}], [r{n,}] and [r{n,n+k}] written out. *)
Definition Plus (r : re) : re := Cat r (Star r).
Definition Opt (r : re) : re := Alt r Eps.

Fixpoint Times (n : nat) (r : re) : re :=
  match n with
  | O => Eps
  | S n' => Cat r (Times n' r)
  end.

Definition AtLeast (n : nat) (r : re) : re := Cat (Times n r) (Star r).
Definition Between (n k : nat) (r : re) : re := Cat (Times n r) (Times k (Opt r)).

Definition Lit (a : ascii) : re := Class (N.eqb (cu a)).

Fixpoint nullable (r : re) : bool :=
  match r with
  | Void => false
  | Eps => true
  | Class _ => false
  | Cat r1 r2 => nullable r1 && nullable r2
  | Alt r1 r2 => nullable r1 || nullable r2
  | Star _ => true
  end.

Fixpoint deriv (c : code_unit) (r : re) : re :=
  match r with
  | Void => Void
  | Eps => Void
  | Class p => if p c then Eps else Void
  | Cat r1 r2 =>
      if nullable r1 then Alt (Cat (deriv c r1) r2) (deriv c r2)
      else Cat (deriv c r1) r2
  | Alt r1 r2 => Alt (deriv c r1) (deriv c r2)
  | Star r1 => Cat (deriv c r1) (Star r1)
  end.

(** The whole of [s] is in the language of [r]: a literal [^r$]. *)
Fixpoint full_match (r : re) (s : jsstring) : bool :=
  match s with
  | [] => nullable r
  | c :: s' => full_match (deriv c r) s'
  end.

(** Some prefix of [s] is in the language of [r]: a literal [^r]. *)
Fixpoint prefix_match (r : re) (s : jsstring) : bool :=
  nullable r ||
  match s with
  | [] => false
  | c :: s' => prefix_match (deriv c r) s'
  end.

(** A literal [/^body/] or [/^body$/]. *)
Record regexp : Type := { body : re; end_anchor : bool }.

(** [RegExp.prototype.test] for a literal without the [g] and [y] flags
    (no [lastIndex] is read or written). *)
Definition test (p : regexp) (s : jsstring) : bool :=
  if end_anchor p then full_match (body p) s else prefix_match (body p) s.

(** The language of a regular expression. *)
Inductive lang : re -> jsstring -> Prop :=
  | lang_eps : lang Eps []
  | lang_class p c : p c = true -> lang (Class p) [c]
  | lang_cat r1 r2 s1 s2 : lang r1 s1 -> lang r2 s2 -> lang (Cat r1 r2) (s1 ++ s2)
  | lang_alt_l r1 r2 s : lang r1 s -> lang (Alt r1 r2) s
  | lang_alt_r r1 r2 s : lang r2 s -> lang (Alt r1 r2) s
  | lang_star_nil r : lang (Star r) []
  | lang_star_cons r s1 s2 :
      lang r s1 -> lang (Star r) s2 -> lang (Star r) (s1 ++ s2).

End Regex.

(** ** [atob]: the forgiving-base64 decode of the HTML standard *)

Definition is_ascii_whitespace (c : code_unit) : bool :=
  (c =? 9) || (c =? 10) || (c =? 12) || (c =? 13) || (c =? 32).

Definition is_upper (c : code_unit) : bool := in_range (cu "A") (cu "Z") c.
Definition is_lower (c : code_unit) : bool := in_range (cu "a") (cu "z") c.
Definition is_digit (c : code_unit) : bool := in_range (cu "0") (cu "9") c.

(** The 6-bit value of a character of the base64 alphabet. *)
Definition b64_value (c : code_unit) : option N :=
  if is_upper c then Some (c - cu "A")
  else if is_lower c then Some (c - cu "a" + 26)
  else if is_digit c then Some (c - cu "0" + 52)
  else if c =? cu "+" then Some 62
  else if c =? cu "/" then Some 63
  else None.

Fixpoint b64_values (s : jsstring) : option (list N) :=
  match s with
  | [] => Some []
  | c :: s' =>
      match b64_value c, b64_values s' with
      | Some v, Some vs => Some (v :: vs)
      | _, _ => None
      end
  end.

(** When the length is a multiple of four, one or two trailing [=] go. *)
Definition strip_padding (s : jsstring) : jsstring :=
  if (N.of_nat (length s) mod 4 =? 0) then
    match rev s with
    | a :: b :: r =>
        if a =? cu "=" then (if b =? cu "=" then rev r else rev (b :: r)) else s
    | _ => s
    end
  else s.

(** Four sextets give three bytes; a rest of three gives two bytes and a
    rest of two gives one, the surplus bits being discarded. *)
Fixpoint b64_bytes (vs : list N) : list code_unit :=
  match vs with
  | a :: b :: c :: d :: rest =>
      let n := a * 262144 + b * 4096 + c * 64 + d in
      (n / 65536) :: ((n / 256) mod 256) :: (n mod 256) :: b64_bytes rest
  | [a; b; c] =>
      let n := (a * 4096 + b * 64 + c) / 4 in
      [n / 256; n mod 256]
  | [a; b] => [(a * 64 + b) / 16]
  | _ => []
  end.

(** [atob(s)]: the decoded binary string, or [InvalidCharacterError]. *)
Definition atob (s : jsstring) : completion jsstring :=
  let data := strip_padding (filter (fun c => negb (is_ascii_whitespace c)) s) in
  if N.of_nat (length data) mod 4 =? 1 then Throw InvalidCharacterError
  else match b64_values data with
       | Some vs => Normal (b64_bytes vs)
       | None => Throw InvalidCharacterError
       end.

(** ** [JSON.parse] *)

(** A number literal [(-1)^neg * digits * 10^exp10], kept exact. *)
Record jsnumber : Type := { neg : bool; digits : N; exp10 : Z }.

(** The Number value of the literal is [+0] or [-0]: the literal is zero or
    it rounds to zero, being at most half the least positive double,
    [2^-1075] (the tie goes to the even neighbour, zero). *)
Definition number_is_zero (n : jsnumber) : bool :=
  (digits n =? 0) ||
  ((exp10 n <? 0)%Z &&
   (Z.of_N (digits n) * 2 ^ 1075 <=? 10 ^ (- exp10 n))%Z).

Inductive json_value : Type :=
  | JNull
  | JBool (b : bool)
  | JNum (n : jsnumber)
  | JStr (s : jsstring)
  | JArr (items : list json_value)
  | JObj (members : list (jsstring * json_value)).

Module JSON.

Inductive token : Type :=
  | TLBrace | TRBrace | TLBrack | TRBrack | TColon | TComma
  | TStr (s : jsstring)
  | TNum (n : jsnumber)
  | TTrue | TFalse | TNull.

(** Where the lexer stands inside a number literal. *)
Inductive num_state : Type :=
  | NMinus | NZero | NInt | NDot | NFrac | NE | NESign | NExp.

Record num_acc : Type :=
  { a_neg : bool; a_digits : N; a_frac : N; a_eneg : bool; a_exp : N }.

Definition num_of_acc (a : num_acc) : jsnumber :=
  {| neg := a_neg a;
     digits := a_digits a;
     exp10 := ((if a_eneg a then - Z.of_N (a_exp a) else Z.of_N (a_exp a))
               - Z.of_N (a_frac a))%Z |}.

Inductive lex_state : Type :=
  | LIdle
  | LLit (rest : jsstring) (t : token)
  | LStr (acc : jsstring)
  | LEsc (acc : jsstring)
  | LHex (k : nat) (v : N) (acc : jsstring)
  | LNum (st : num_state) (a : num_acc).

Definition is_json_space (c : code_unit) : bool :=
  (c =? 9) || (c =? 10) || (c =? 13) || (c =? 32).

Definition hex_value (c : code_unit) : option N :=
  if is_digit c then Some (c - cu "0")
  else if in_range (cu "a") (cu "f") c then Some (c - cu "a" + 10)
  else if in_range (cu "A") (cu "F") c then Some (c - cu "A" + 10)
  else None.

Definition digit_value (c : code_unit) : N := c - cu "0".

Definition acc0 (ng : bool) (d : N) : num_acc :=
  {| a_neg := ng; a_digits := d; a_frac := 0; a_eneg := false; a_exp := 0 |}.

(** A character read between tokens. *)
Definition idle_step (c : code_unit) : option (list token * lex_state) :=
  if is_json_space c then Some ([], LIdle)
  else if c =? cu "{" then Some ([TLBrace], LIdle)
  else if c =? cu "}" then Some ([TRBrace], LIdle)
  else if c =? cu "[" then Some ([TLBrack], LIdle)
  else if c =? cu "]" then Some ([TRBrack], LIdle)
  else if c =? cu ":" then Some ([TColon], LIdle)
  else if c =? cu "," then Some ([TComma], LIdle)
  else if c =? 34 then Some ([], LStr [])
  else if c =? cu "-" then Some ([], LNum NMinus (acc0 true 0))
  else if c =? cu "0" then Some ([], LNum NZero (acc0 false 0))
  else if is_digit c then Some ([], LNum NInt (acc0 false (digit_value c)))
  else if c =? cu "t" then Some ([], LLit (js "rue") TTrue)
  else if c =? cu "f" then Some ([], LLit (js "alse") TFalse)
  else if c =? cu "n" then Some ([], LLit (js "ull") TNull)
  else None.

(** The literal ends before [c], which is then read as a fresh character. *)
Definition end_number (a : num_acc) (c : code_unit)
  : option (list token * lex_state) :=
  match idle_step c with
  | Some (ts, st) => Some (TNum (num_of_acc a) :: ts, st)
  | None => None
  end.

Definition is_e (c : code_unit) : bool := (c =? cu "e") || (c =? cu "E").

Definition push_digit (a : num_acc) (c : code_unit) : num_acc :=
  {| a_neg := a_neg a; a_digits := a_digits a * 10 + digit_value c;
     a_frac := a_frac a; a_eneg := a_eneg a; a_exp := a_exp a |}.

Definition push_frac (a : num_acc) (c : code_unit) : num_acc :=
  {| a_neg := a_neg a; a_digits := a_digits a * 10 + digit_value c;
     a_frac := a_frac a + 1; a_eneg := a_eneg a; a_exp := a_exp a |}.

Definition push_exp (a : num_acc) (c : code_unit) : num_acc :=
  {| a_neg := a_neg a; a_digits := a_digits a;
     a_frac := a_frac a; a_eneg := a_eneg a;
     a_exp := a_exp a * 10 + digit_value c |}.

Definition set_eneg (a : num_acc) : num_acc :=
  {| a_neg := a_neg a; a_digits := a_digits a;
     a_frac := a_frac a; a_eneg := true; a_exp := a_exp a |}.

Definition num_step (st : num_state) (a : num_acc) (c : code_unit)
  : option (list token * lex_state) :=
  match st with
  | NMinus =>
      if c =? cu "0" then Some ([], LNum NZero a)
      else if is_digit c then Some ([], LNum NInt (push_digit a c))
      else None
  | NZero =>
      if c =? cu "." then Some ([], LNum NDot a)
      else if is_e c then Some ([], LNum NE a)
      else end_number a c
  | NInt =>
      if is_digit c then Some ([], LNum NInt (push_digit a c))
      else if c =? cu "." then Some ([], LNum NDot a)
      else if is_e c then Some ([], LNum NE a)
      else end_number a c
  | NDot =>
      if is_digit c then Some ([], LNum NFrac (push_frac a c)) else None
  | NFrac =>
      if is_digit c then Some ([], LNum NFrac (push_frac a c))
      else if is_e c then Some ([], LNum NE a)
      else end_number a c
  | NE =>
      if c =? cu "+" then Some ([], LNum NESign a)
      else if c =? cu "-" then Some ([], LNum NESign (set_eneg a))
      else if is_digit c then Some ([], LNum NExp (push_exp a c))
      else None
  | NESign =>
      if is_digit c then Some ([], LNum NExp (push_exp a c)) else None
  | NExp =>
      if is_digit c then Some ([], LNum NExp (push_exp a c))
      else end_number a c
  end.

(** The character an escape [\c] stands for ([\u] is handled apart). *)
Definition escape_value (c : code_unit) : option code_unit :=
  if c =? 34 then Some 34
  else if c =? 92 then Some 92
  else if c =? cu "/" then Some (cu "/")
  else if c =? cu "b" then Some 8
  else if c =? cu "f" then Some 12
  else if c =? cu "n" then Some 10
  else if c =? cu "r" then Some 13
  else if c =? cu "t" then Some 9
  else None.

Definition lex_step (st : lex_state) (c : code_unit)
  : option (list token * lex_state) :=
  match st with
  | LIdle => idle_step c
  | LLit rest t =>
      match rest with
      | x :: rest' =>
          if c =? x then
            match rest' with
            | [] => Some ([t], LIdle)
            | _ => Some ([], LLit rest' t)
            end
          else None
      | [] => None
      end
  | LStr acc =>
      if c =? 34 then Some ([TStr (rev acc)], LIdle)
      else if c =? 92 then Some ([], LEsc acc)
      else if c <? 32 then None
      else Some ([], LStr (c :: acc))
  | LEsc acc =>
      if c =? cu "u" then Some ([], LHex 4 0 acc)
      else match escape_value c with
           | Some v => Some ([], LStr (v :: acc))
           | None => None
           end
  | LHex k v acc =>
      match k, hex_value c with
      | S O, Some h => Some ([], LStr ((v * 16 + h) :: acc))
      | S k', Some h => Some ([], LHex k' (v * 16 + h) acc)
      | _, _ => None
      end
  | LNum ns a => num_step ns a c
  end.

(** What the end of the text does in each lexer state. *)
Definition lex_end (st : lex_state) : option (list token) :=
  match st with
  | LIdle => Some []
  | LNum NZero a | LNum NInt a | LNum NFrac a | LNum NExp a =>
      Some [TNum (num_of_acc a)]
  | _ => None
  end.

Fixpoint lex (st : lex_state) (s : jsstring) : option (list token) :=
  match s with
  | [] => lex_end st
  | c :: s' =>
      match lex_step st c with
      | Some (ts, st') =>
          match lex st' s' with
          | Some rest => Some (ts ++ rest)
          | None => None
          end
      | None => None
      end
  end.

(** The parser is a pushdown automaton over the tokens.  A frame is an
    array or an object under construction (members in reverse). *)
Inductive frame : Type :=
  | FArr (acc : list json_value)
  | FObjK (acc : list (jsstring * json_value))
  | FObjV (acc : list (jsstring * json_value)) (key : jsstring).

Inductive mode : Type :=
  | MValue      (* a value must follow *)
  | MArrFirst   (* after [[]: a value or []] *)
  | MObjFirst   (* after [{]: a key or [}] *)
  | MObjKey     (* after a comma in an object: a key *)
  | MColon      (* after a key *)
  | MAfter      (* after a value inside an array or object *)
  | MDone (v : json_value).

(** A completed value goes to the enclosing frame, or is the result. *)
Definition deliver (v : json_value) (stack : list frame) : option (mode * list frame) :=
  match stack with
  | [] => Some (MDone v, [])
  | FArr acc :: st => Some (MAfter, FArr (v :: acc) :: st)
  | FObjV acc k :: st => Some (MAfter, FObjK ((k, v) :: acc) :: st)
  | FObjK _ :: _ => None
  end.

Definition value_step (t : token) (stack : list frame)
  : option (mode * list frame) :=
  match t with
  | TLBrack => Some (MArrFirst, FArr [] :: stack)
  | TLBrace => Some (MObjFirst, FObjK [] :: stack)
  | TStr s => deliver (JStr s) stack
  | TNum n => deliver (JNum n) stack
  | TTrue => deliver (JBool true) stack
  | TFalse => deliver (JBool false) stack
  | TNull => deliver JNull stack
  | _ => None
  end.

Definition key_step (t : token) (stack : list frame)
  : option (mode * list frame) :=
  match t, stack with
  | TStr k, FObjK acc :: st => Some (MColon, FObjV acc k :: st)
  | _, _ => None
  end.

Definition parse_step (m : mode) (stack : list frame) (t : token)
  : option (mode * list frame) :=
  match m with
  | MValue => value_step t stack
  | MArrFirst =>
      match t, stack with
      | TRBrack, FArr _ :: st => deliver (JArr []) st
      | _, _ => value_step t stack
      end
  | MObjFirst =>
      match t, stack with
      | TRBrace, FObjK _ :: st => deliver (JObj []) st
      | _, _ => key_step t stack
      end
  | MObjKey => key_step t stack
  | MColon =>
      match t with
      | TColon => Some (MValue, stack)
      | _ => None
      end
  | MAfter =>
      match t, stack with
      | TComma, FArr _ :: _ => Some (MValue, stack)
      | TComma, FObjK _ :: _ => Some (MObjKey, stack)
      | TRBrack, FArr acc :: st => deliver (JArr (rev acc)) st
      | TRBrace, FObjK acc :: st => deliver (JObj (rev acc)) st
      | _, _ => None
      end
  | MDone _ => None
  end.

Fixpoint run (m : mode) (stack : list frame) (ts : list token) : option json_value :=
  match ts with
  | [] => match m with MDone v => Some v | _ => None end
  | t :: ts' =>
      match parse_step m stack t with
      | Some (m', stack') => run m' stack' ts'
      | None => None
      end
  end.

(** [JSON.parse(text)] without a reviver. *)
Definition parse (text : jsstring) : completion json_value :=
  match lex LIdle text with
  | Some ts =>
      match run MValue [] ts with
      | Some v => Normal v
      | None => Throw SyntaxError
      end
  | None => Throw SyntaxError
  end.

End JSON.

(** ** Values read off a parsed document *)

(** What a property read can give: [undefined], a built-in function found
    on a prototype, or a value of the parsed document. *)
Inductive jsval : Type :=
  | VUndefined
  | VFunction
  | VJson (v : json_value).

(** The own property [k] of a parsed object; of two members with the same
    key the later one stands. *)
Definition own_property (k : jsstring) (members : list (jsstring * json_value))
  : option json_value :=
  fold_left (fun r kv => if jsstring_eqb (fst kv) k then Some (snd kv) else r)
            members None.

(** [v.k] for the result [v] of [JSON.parse] and one of the names the
    source reads ([typ], [alg], [iat], [exp], [sub]).  On [null] the read
    throws.  An object answers with its own property.  Every other value
    is looked up on its prototype, and among these names only
    [String.prototype.sub] exists. *)
Definition js_get (v : json_value) (k : jsstring) : completion jsval :=
  match v with
  | JNull => Throw TypeError
  | JObj members =>
      Normal (match own_property k members with
              | Some x => VJson x
              | None => VUndefined
              end)
  | JStr _ => Normal (if jsstring_eqb k (js "sub") then VFunction else VUndefined)
  | _ => Normal VUndefined
  end.

(** [ToBoolean]. *)
Definition truthy (v : jsval) : bool :=
  match v with
  | VUndefined => false
  | VFunction => true
  | VJson JNull => false
  | VJson (JBool b) => b
  | VJson (JNum n) => negb (number_is_zero n)
  | VJson (JStr s) => negb (Nat.eqb (length s) 0)
  | VJson (JArr _) => true
  | VJson (JObj _) => true
  end.

(** [v === s] for a string [s]. *)
Definition strict_eq_string (v : jsval) (s : jsstring) : bool :=
  match v with
  | VJson (JStr s') => jsstring_eqb s' s
  | _ => false
  end.

(** [parseInt(s, 10)]: leading blanks, a sign, then the longest run of
    digits; [None] is [NaN].  The value is kept exact, as the Number value
    is for the at most 13 digits that pass the timestamp pattern. *)
Fixpoint digits_value (acc : Z) (s : jsstring) : Z :=
  match s with
  | c :: s' =>
      if is_digit c then digits_value (acc * 10 + Z.of_N (c - cu "0"))%Z s'
      else acc
  | [] => acc
  end.

Definition parse_digits (s : jsstring) : option Z :=
  match s with
  | c :: _ => if is_digit c then Some (digits_value 0%Z s) else None
  | [] => None
  end.

Definition parseInt10 (s : jsstring) : option Z :=
  match trimStart s with
  | c :: s' =>
      if c =? cu "-" then option_map Z.opp (parse_digits s')
      else if c =? cu "+" then parse_digits s'
      else parse_digits (c :: s')
  | [] => None
  end.

(** ** The character classes of the five patterns *)

Definition is_alnum (c : code_unit) : bool := is_upper c || is_lower c || is_digit c.

(** [[A-Za-z0-9_-]] *)
Definition is_base64url_char (c : code_unit) : bool :=
  is_alnum c || (c =? cu "_") || (c =? cu "-").

(** [[A-Za-z0-9+/=_-]] *)
Definition is_base64_char (c : code_unit) : bool :=
  is_alnum c || (c =? cu "+") || (c =? cu "/") || (c =? cu "=")
  || (c =? cu "_") || (c =? cu "-").

(** [[\[{]] *)
Definition is_open_bracket (c : code_unit) : bool := (c =? cu "[") || (c =? cu "{").

(** [.] without the [s] flag *)
Definition is_dot_char (c : code_unit) : bool := negb (is_line_terminator c).

(** [[gimsuy]] *)
Definition is_flag (c : code_unit) : bool :=
  (c =? cu "g") || (c =? cu "i") || (c =? cu "m") || (c =? cu "s")
  || (c =? cu "u") || (c =? cu "y").

(** [c.charCodeAt(0) >= 32 && c.charCodeAt(0) < 127] *)
Definition is_printable (c : code_unit) : bool := (32 <=? c) && (c <? 127).

Import Regex.

(** [/^[A-Za-z0-9_-]+\.[A-Za-z0-9_-]+\.[A-Za-z0-9_-]*$/] *)
Definition jwt_pattern : regexp :=
  {| body := Cat (Plus (Class is_base64url_char))
               (Cat (Lit ".")
                  (Cat (Plus (Class is_base64url_char))
                     (Cat (Lit ".") (Star (Class is_base64url_char)))));
     end_anchor := true |}.

(** [/^[\s]*[\[{]/] *)
Definition json_pattern : regexp :=
  {| body := Cat (Star (Class is_space)) (Class is_open_bracket);
     end_anchor := false |}.

(** [/^[A-Za-z0-9+/=_-]{20,}$/] *)
Definition base64_pattern : regexp :=
  {| body := AtLeast 20 (Class is_base64_char); end_anchor := true |}.

(** [/^\d{10,13}$/] *)
Definition unixTimestamp_pattern : regexp :=
  {| body := Between 10 3 (Class is_digit); end_anchor := true |}.

(** [/^\/.*\/[gimsuy]*$/] *)
Definition regex_pattern : regexp :=
  {| body := Cat (Lit "/")
               (Cat (Star (Class is_dot_char))
                  (Cat (Lit "/") (Star (Class is_flag))));
     end_anchor := true |}.

(** [s.match(re)] for the literal of [regex.validate], which is
    [regex_pattern] with a group around [.*] and one around the flags: the
    two captures, or [None] for [null].  The flags hold no slash, so the closing slash is the last one
    of [s]; the greedy [.*] then has one way to match. *)
Fixpoint split_last_slash (s : jsstring) : option (jsstring * jsstring) :=
  match s with
  | [] => None
  | c :: s' =>
      match split_last_slash s' with
      | Some (before, after) => Some (c :: before, after)
      | None => if c =? cu "/" then Some ([], s') else None
      end
  end.

Definition regex_literal_match (s : jsstring) : option (jsstring * jsstring) :=
  match s with
  | c :: rest =>
      if c =? cu "/" then
        match split_last_slash rest with
        | Some (source, flags) =>
            if forallb is_dot_char source && forallb is_flag flags
            then Some (source, flags) else None
        | None => None
        end
      else None
  | [] => None
  end.

(** [s.replace(/-/g, '+').replace(/_/g, '/')] *)
Definition to_standard_base64 (s : jsstring) : jsstring :=
  replace_all (cu "_") (cu "/") (replace_all (cu "-") (cu "+") s).

(** [printableRatio > 0.7] for [printableRatio = printable / total]; the
    quotient of [0 / 0] is [NaN], which is not greater than anything.  The
    double quotient compares with the double [0.7] as the exact fraction
    compares with 7/10 for every length a string can have in practice
    (below [10^14]). *)
Definition ratio_exceeds_07 (printable total : nat) : bool :=
  negb (Nat.eqb total 0) && Nat.ltb (7 * total) (10 * printable).

(** ** The detection table *)

Inductive format_key : Type := jwt | json | base64 | unixTimestamp | regex.

(** The property name of a key in [DETECTION_PATTERNS]. *)
Definition key_name (k : format_key) : jsstring :=
  match k with
  | jwt => js "jwt"
  | json => js "json"
  | base64 => js "base64"
  | unixTimestamp => js "unixTimestamp"
  | regex => js "regex"
  end.

(** An entry of [DETECTION_PATTERNS].  [validate] gives the truth value of
    what the source function returns, or the exception that escapes it. *)
Record detection : Type :=
  { pattern : regexp;
    validate : jsstring -> completion bool;
    d_confidence : Q;
    d_tool : jsstring }.

(** [{ format, tool, confidence }] *)
Record DetectionResult : Type :=
  { format : jsstring; tool : jsstring; confidence : Q }.

(** [Array.prototype.sort(compare)]: a stable sort; [compare a b < 0] puts
    [a] first, and elements that compare equal keep their order. *)
Fixpoint sort_insert {A} (compare : A -> A -> Q) (x : A) (l : list A) : list A :=
  match l with
  | [] => [x]
  | y :: l' =>
      if Qle_bool (compare x y) 0 then x :: y :: l'
      else y :: sort_insert compare x l'
  end.

Fixpoint Array_sort {A} (compare : A -> A -> Q) (l : list A) : list A :=
  match l with
  | [] => []
  | x :: l' => sort_insert compare x (Array_sort compare l')
  end.

(** [JSON.parse(atob(part.replace(/-/g, '+').replace(/_/g, '/')))] *)
Definition decode_part (part : jsstring) : completion json_value :=
  (text <- atob (to_standard_base64 part) ;; JSON.parse text)%completion.

(** The truth value of
    [header.typ === 'JWT' || header.alg || payload.iat || payload.exp || payload.sub],
    read from left to right until an operand is truthy. *)
Definition typical_claims (header payload : json_value) : completion bool :=
  (typ <- js_get header (js "typ") ;;
   if strict_eq_string typ (js "JWT") then Normal true else
   alg <- js_get header (js "alg") ;;
   if truthy alg then Normal true else
   iat <- js_get payload (js "iat") ;;
   if truthy iat then Normal true else
   exp <- js_get payload (js "exp") ;;
   if truthy exp then Normal true else
   sub <- js_get payload (js "sub") ;;
   Normal (truthy sub))%completion.

(** [jwt.validate] *)
Definition jwt_validate (content : jsstring) : completion bool :=
  match split (cu ".") (trim content) with
  | [part0; part1; _] =>
      try_catch
        (header <- decode_part part0 ;;
         payload <- decode_part part1 ;;
         typical_claims header payload)%completion
        (fun _ => Normal false)
  | _ => Normal false
  end.

(** [json.validate] *)
Definition json_validate (content : jsstring) : completion bool :=
  try_catch
    (_ <- JSON.parse (trim content) ;; Normal true)%completion
    (fun _ => Normal false).

(** [base64.validate] *)
Definition base64_validate (content : jsstring) : completion bool :=
  let trimmed := trim content in
  if includes (cu ".") trimmed then Normal false
  else
    try_catch
      (decoded <- atob (to_standard_base64 trimmed) ;;
       let printable := length (filter is_printable decoded) in
       Normal (ratio_exceeds_07 printable (length decoded)
               || Nat.ltb (length decoded) 50))%completion
      (fun _ => Normal false).

Section Host.

(** [Date.now()], in milliseconds, as read by the call at hand. *)
Variable now : Z.

(** [new RegExp(source, flags)]: returns, or throws on a pattern or a flag
    string the engine rejects. *)
Variable RegExp_new : jsstring -> jsstring -> completion unit.

(** [unixTimestamp.validate].  A comparison with [NaN] is false.  The
    bound [now / 1000 + 1577836800] is compared exactly.  The source
    computes it in doubles; [num] is a whole number, and for every clock
    reading a [Date] can hold the double bound is the exact one when
    [now] is a multiple of 1000 and otherwise lies strictly between the
    same two whole numbers as the exact one, so both comparisons agree. *)
Definition unixTimestamp_validate (content : jsstring) : completion bool :=
  match parseInt10 (trim content) with
  | None => Normal false
  | Some num =>
      if Nat.eqb (length content) 10 then
        Normal ((0 <? num)%Z && (num * 1000 <? now + 1577836800 * 1000)%Z)
      else if Nat.eqb (length content) 13 then
        Normal ((0 <? num)%Z && (num <? now + 1577836800000)%Z)
      else Normal false
  end.

(** [regex.validate] *)
Definition regex_validate (content : jsstring) : completion bool :=
  try_catch
    (match regex_literal_match (trim content) with
     | Some (source, flags) =>
         (_ <- RegExp_new source flags ;; Normal true)%completion
     | None => Normal false
     end)
    (fun _ => Normal false).

Definition DETECTION_PATTERNS (k : format_key) : detection :=
  match k with
  | jwt =>
      {| pattern := jwt_pattern; validate := jwt_validate;
         d_confidence := 95 # 100; d_tool := js "jwt" |}
  | json =>
      {| pattern := json_pattern; validate := json_validate;
         d_confidence := 9 # 10; d_tool := js "json" |}
  | base64 =>
      {| pattern := base64_pattern; validate := base64_validate;
         d_confidence := 7 # 10; d_tool := js "base64" |}
  | unixTimestamp =>
      {| pattern := unixTimestamp_pattern; validate := unixTimestamp_validate;
         d_confidence := 85 # 100; d_tool := js "timestamp" |}
  | regex =>
      {| pattern := regex_pattern; validate := regex_validate;
         d_confidence := 9 # 10; d_tool := js "regex" |}
  end.

Definition DETECTION_ORDER : list format_key :=
  [jwt; json; unixTimestamp; regex; base64].

(** The object pushed for a key whose two tests pass. *)
Definition result_of (k : format_key) : DetectionResult :=
  {| format := key_name k;
     tool := d_tool (DETECTION_PATTERNS k);
     confidence := d_confidence (DETECTION_PATTERNS k) |}.

(** The body of the [for] loop, from the keys still to visit and the
    results pushed so far. *)
Fixpoint detect_loop (keys : list format_key) (trimmed : jsstring)
  (results : list DetectionResult) : completion (list DetectionResult) :=
  match keys with
  | [] => Normal results
  | formatKey :: keys' =>
      let detection := DETECTION_PATTERNS formatKey in
      if test (pattern detection) trimmed then
        (ok <- validate detection trimmed ;;
         if ok then detect_loop keys' trimmed (results ++ [result_of formatKey])
         else detect_loop keys' trimmed results)%completion
      else detect_loop keys' trimmed results
  end.

(** [(a, b) => b.confidence - a.confidence] *)
Definition by_confidence (a b : DetectionResult) : Q :=
  confidence b - confidence a.

(** [detectFormat(content)] for a string [content]; [None] is [null]. *)
Definition detectFormat (content : jsstring) : completion (option DetectionResult) :=
  match content with
  | [] => Normal None
  | _ =>
      let trimmed := trim content in
      if Nat.eqb (length trimmed) 0 then Normal None
      else
        (results <- detect_loop DETECTION_ORDER trimmed [] ;;
         match Array_sort by_confidence results with
         | best :: _ => Normal (Some best)
         | [] => Normal None
         end)%completion
  end.

End Host.

(** A property read [names[key]] on an object literal with the given
    members, for a key that no prototype answers. *)
Fixpoint lookup (key : jsstring) (members : list (jsstring * jsstring))
  : option jsstring :=
  match members with
  | [] => None
  | (k, v) :: members' => if jsstring_eqb k key then Some v else lookup key members'
  end.

(** [getFormatDisplayName(format)] *)
Definition getFormatDisplayName (fmt : jsstring) : jsstring :=
  let names :=
    [ (js "jwt", js "JWT Token");
      (js "json", js "JSON");
      (js "base64", js "Base64");
      (js "unixTimestamp", js "Unix Timestamp");
      (js "regex", js "Regular Expression") ] in
  match lookup fmt names with
  | Some name => name
  | None => fmt
  end.

(** [getToolDisplayName(tool)] *)
Definition getToolDisplayName (tl : jsstring) : jsstring :=
  let names :=
    [ (js "jwt", js "JWT Decoder");
      (js "json", js "JSON Formatter");
      (js "base64", js "Base64 Encoder/Decoder");
      (js "timestamp", js "Unix Time Converter");
      (js "regex", js "Regex Tester") ] in
  match lookup tl names with
  | Some name => name
  | None => tl
  end.

(** ** The paste router *)

(** The object handed to [onDetect]. *)
Record PasteEvent : Type :=
  { p_content : jsstring;
    p_format : jsstring;
    p_tool : jsstring;
    p_confidence : Q;
    p_displayName : jsstring;
    p_toolName : jsstring }.

Section Router.

(** Whatever the callbacks of the caller can read and change. *)
Variable World : Type.

(** A callback runs on the world and returns or throws. *)
Definition callback (A : Type) : Type := A -> World -> World * completion unit.

(** [() => {}] *)
Definition noop {A} : callback A := fun _ w => (w, Normal tt).

(** The fields of a [SmartPaste] instance; [listening] tells whether
    [handleGlobalPaste] is registered on the document. *)
Record SmartPaste : Type :=
  { onDetect : callback PasteEvent;
    onError : callback exn;
    enabled : bool;
    listening : bool }.

(** The [options] argument of the constructor; [None] is an absent field. *)
Record Options : Type :=
  { opt_onDetect : option (callback PasteEvent);
    opt_onError : option (callback exn) }.

(** [new SmartPaste(options)] *)
Definition new_SmartPaste (options : Options) : SmartPaste :=
  {| onDetect := match opt_onDetect options with Some f => f | None => noop end;
     onError := match opt_onError options with Some f => f | None => noop end;
     enabled := true;
     listening := false |}.

(** A call of a callback, as an observer of the router sees it. *)
Inductive call : Type :=
  | CallDetect (ev : PasteEvent)
  | CallError (e : exn).

(** What a method call leaves behind: the callback calls it made, in order,
    the world and the instance after it, and its completion. *)
Record outcome (A : Type) : Type :=
  { calls : list call;
    world_after : World;
    self_after : SmartPaste;
    completion_of : completion A }.

Variable now : Z.
Variable RegExp_new : jsstring -> jsstring -> completion unit.

(** [enable()] *)
Definition enable (self : SmartPaste) (w : World) : outcome unit :=
  {| calls := [];
     world_after := w;
     self_after := {| onDetect := onDetect self; onError := onError self;
                      enabled := true; listening := true |};
     completion_of := Normal tt |}.

(** [disable()] *)
Definition disable (self : SmartPaste) (w : World) : outcome unit :=
  {| calls := [];
     world_after := w;
     self_after := {| onDetect := onDetect self; onError := onError self;
                      enabled := false; listening := false |};
     completion_of := Normal tt |}.

(** The object literal of the first branch of [processContent]. *)
Definition enriched (content : jsstring) (detection : DetectionResult) : PasteEvent :=
  {| p_content := content;
     p_format := format detection;
     p_tool := tool detection;
     p_confidence := confidence detection;
     p_displayName := getFormatDisplayName (format detection);
     p_toolName := getToolDisplayName (tool detection) |}.

(** The object literal of the second branch. *)
Definition fallback (content : jsstring) : PasteEvent :=
  {| p_content := content;
     p_format := js "unknown";
     p_tool := js "json";
     p_confidence := 0;
     p_displayName := js "Unknown Format";
     p_toolName := js "JSON Formatter" |}.

(** The [catch] clause of [processContent], entered in world [w] after the
    calls [done]. *)
Definition on_caught (self : SmartPaste) (done : list call) (error : exn)
  (w : World) : outcome unit :=
  let (w', c) := onError self error w in
  {| calls := done ++ [CallError error];
     world_after := w';
     self_after := self;
     completion_of := c |}.

(** [processContent(content)] *)
Definition processContent (self : SmartPaste) (content : jsstring) (w : World)
  : outcome unit :=
  match detectFormat now RegExp_new content with
  | Throw error => on_caught self [] error w
  | Normal detection =>
      let ev := match detection with
                | Some d => enriched content d
                | None => fallback content
                end in
      let (w', c) := onDetect self ev w in
      match c with
      | Normal _ =>
          {| calls := [CallDetect ev];
             world_after := w';
             self_after := self;
             completion_of := Normal tt |}
      | Throw error => on_caught self [CallDetect ev] error w'
      end
  end.

(** [analyze(content)] *)
Definition analyze (self : SmartPaste) (content : jsstring) (w : World)
  : outcome (option DetectionResult) :=
  {| calls := [];
     world_after := w;
     self_after := self;
     completion_of := detectFormat now RegExp_new content |}.

End Router.

(** ** Notions used to state the properties *)

(** The read [v.k] returns the string [s]. *)
Definition reads_string (v : json_value) (k s : jsstring) : Prop :=
  match js_get v k with
  | Normal x => strict_eq_string x s = true
  | Throw _ => False
  end.

(** The read [v.k] returns a truthy value. *)
Definition reads_truthy (v : json_value) (k : jsstring) : Prop :=
  match js_get v k with
  | Normal x => truthy x = true
  | Throw _ => False
  end.

(** The descriptor [k] passes both of its tests on the trimmed text, under
    the clock reading [now] and the regular-expression engine [RegExp_new]. *)
Definition passes (now : Z) (RegExp_new : jsstring -> jsstring -> completion unit)
  (trimmed : jsstring) (k : format_key) : bool :=
  let detection := DETECTION_PATTERNS now RegExp_new k in
  test (pattern detection) trimmed &&
  match validate detection trimmed with
  | Normal ok => ok
  | Throw _ => false
  end.

(** The object [processContent] hands to [onDetect] for a text. *)
Definition delivered_event (now : Z)
  (RegExp_new : jsstring -> jsstring -> completion unit) (content : jsstring)
  : PasteEvent :=
  match detectFormat now RegExp_new content with
  | Normal (Some detection) => enriched content detection
  | _ => fallback content
  end.

(** The trimmed text is made of digits only. *)
Definition all_digits (s : jsstring) : bool := forallb is_digit s.

(** The whole number a string of digits denotes. *)
Definition digits_number (s : jsstring) : Z := digits_value 0%Z s.

Definition has_field (k : jsstring) (members : list (jsstring * json_value)) : bool :=
  match own_property k members with
  | Some _ => true
  | None => false
  end.

(** The acceptance condition of the jwt validator in the words of the
    specification: three parts, parts 0 and 1 decode to JSON objects, and
    the header has [typ] equal to [JWT] or an [alg] field, or the payload
    has an [iat], [exp] or [sub] field. *)
Definition jwt_accepts_as_specified (content : jsstring) : bool :=
  match split (cu ".") (trim content) with
  | [part0; part1; _] =>
      match decode_part part0, decode_part part1 with
      | Normal (JObj header), Normal (JObj payload) =>
          match own_property (js "typ") header with
          | Some (JStr s) => jsstring_eqb s (js "JWT")
          | _ => false
          end
          || has_field (js "alg") header
          || has_field (js "iat") payload
          || has_field (js "exp") payload
          || has_field (js "sub") payload
      | _, _ => false
      end
  | _ => false
  end.

(** The printable range in the words of the specification, [[32,126)]. *)
Definition is_printable_as_specified (c : code_unit) : bool :=
  (32 <=? c) && (c <? 126).

(** The condition under which the base64 descriptor validates in the words
    of the specification. *)
Definition base64_validates_as_specified (content : jsstring) : bool :=
  let trimmed := trim content in
  forallb is_base64_char trimmed
  && Nat.leb 20 (length trimmed)
  && negb (includes (cu ".") trimmed)
  && match atob (to_standard_base64 trimmed) with
     | Normal decoded =>
         Nat.ltb (length decoded) 50
         || ratio_exceeds_07
              (length (filter is_printable_as_specified decoded))
              (length decoded)
     | Throw _ => false
     end.

(** An engine that compiles the patterns made of letters and digits with
    no flag, which every ECMAScript engine compiles, and rejects the rest.
    It serves to run the detector on concrete texts. *)
Definition RegExp_new_plain (source flags : jsstring) : completion unit :=
  if forallb is_alnum source && Nat.eqb (length flags) 0 then Normal tt
  else Throw SyntaxError.

(** Callbacks over a world that counts the calls made so far. *)
Definition counting_callback {A} : callback nat A := fun _ n => (S n, Normal tt).

(** An [onDetect] that throws, and an [onError] that throws what it gets. *)
Definition throwing_onDetect : callback nat PasteEvent :=
  fun _ n => (S n, Throw TypeError).

Definition rethrowing_onError : callback nat exn :=
  fun error n => (S n, Throw error).

(** ** The rest of the router: the handler of global paste events *)

Fixpoint starts_with (needle s : jsstring) : bool :=
  match needle, s with
  | [], _ => true
  | x :: needle', y :: s' => (x =? y) && starts_with needle' s'
  | _ :: _, [] => false
  end.

(** [s.includes(needle)] for a string needle. *)
Fixpoint string_includes (needle s : jsstring) : bool :=
  starts_with needle s ||
  match s with
  | [] => false
  | _ :: s' => string_includes needle s'
  end.

(** What [handleGlobalPaste] reads of [event.target]: [tagName] and [id]
    are [None] on a node that has none; [classList] is read on elements
    only. *)
Record PasteTarget : Type :=
  { tagName : option jsstring;
    classList : list jsstring;
    id : option jsstring }.

(** What [handleGlobalPaste] reads of the event.  [clipboardData] is
    [None] when the event carries none, else the string that
    [getData('text')] returns. *)
Record ClipboardEvent : Type :=
  { target : PasteTarget;
    clipboardData : option jsstring }.

(** [target.tagName === 'INPUT' || target.tagName === 'TEXTAREA'] *)
Definition is_text_field (t : PasteTarget) : bool :=
  match tagName t with
  | Some name => jsstring_eqb name (js "INPUT") || jsstring_eqb name (js "TEXTAREA")
  | None => false
  end.

(** [target.classList.contains('paste-input')] *)
Definition has_paste_input_class (t : PasteTarget) : bool :=
  existsb (jsstring_eqb (js "paste-input")) (classList t).

(** The truth value of [target.id?.includes('smart')]. *)
Definition id_includes_smart (t : PasteTarget) : bool :=
  match id t with
  | Some i => string_includes (js "smart") i
  | None => false
  end.

(** The two methods that subscribe and unsubscribe. *)
Inductive lifecycle_call : Type := CallEnable | CallDisable.

Section GlobalPaste.

Variable World : Type.
Variable now : Z.
Variable RegExp_new : jsstring -> jsstring -> completion unit.

(** A method that returns at once, having done nothing. *)
Definition idle {A} (self : SmartPaste World) (w : World) (a : A) : outcome World A :=
  {| calls := []; world_after := w; self_after := self; completion_of := Normal a |}.

(** [handleGlobalPaste(event)] *)
Definition handleGlobalPaste (self : SmartPaste World) (event : ClipboardEvent)
  (w : World) : outcome World unit :=
  if negb (enabled self) then idle self w tt
  else
    if is_text_field (target event)
       && (negb (has_paste_input_class (target event))
           && negb (id_includes_smart (target event)))
    then idle self w tt
    else
      match clipboardData event with
      | Some (c :: content) => processContent now RegExp_new self (c :: content) w
      | _ => idle self w tt
      end.

(** A paste event that reaches the document: [handleGlobalPaste] runs when
    it is registered as a listener ([addEventListener] does not register the
    same function twice, and the constructor binds it once). *)
Definition document_paste (self : SmartPaste World) (event : ClipboardEvent)
  (w : World) : outcome World unit :=
  if listening self then handleGlobalPaste self event w else idle self w tt.

(** The instance after a sequence of calls of [enable] and [disable]. *)
Definition lifecycle_step (self : SmartPaste World) (c : lifecycle_call) (w : World)
  : SmartPaste World :=
  match c with
  | CallEnable => self_after (enable self w)
  | CallDisable => self_after (disable self w)
  end.

Fixpoint lifecycle (self : SmartPaste World) (cs : list lifecycle_call) (w : World)
  : SmartPaste World :=
  match cs with
  | [] => self
  | c :: cs' => lifecycle (lifecycle_step self c w) cs' w
  end.

End GlobalPaste.

(** ** The application that owns the router ([main.js]) *)

(** The keys of [toolDefinitions] with their [name] and [shortcut]; the
    [class] field, a constructor, is left to [show_tool] below. *)
Definition toolDefinitions : list (jsstring * (jsstring * jsstring)) :=
  [ (js "json", (js "JSON Formatter", js "1"));
    (js "jwt", (js "JWT Decoder", js "2"));
    (js "regex", (js "Regex Tester", js "3"));
    (js "timestamp", (js "Unix Time Converter", js "4"));
    (js "base64", (js "Base64 Encoder/Decoder", js "5")) ].

(** [this.toolDefinitions[toolKey]] for a key that no prototype answers. *)
Fixpoint tool_definition (toolKey : jsstring)
  (defs : list (jsstring * (jsstring * jsstring))) : option (jsstring * jsstring) :=
  match defs with
  | [] => None
  | (k, d) :: defs' =>
      if jsstring_eqb k toolKey then Some d else tool_definition toolKey defs'
  end.

Section Application.

(** The page: the document, the tool instances, the preferences, the
    console and the toasts. *)
Variable Page : Type.

(** [console.log] and [console.error], which return. *)
Variable console_log : PasteEvent -> Page -> Page.
Variable console_error_tool : jsstring -> Page -> Page.
Variable console_error_paste : exn -> Page -> Page.

(** [toast.info(message)] and [toast.error(message)]. *)
Variable toast_info : jsstring -> Page -> Page * completion unit.
Variable toast_error : jsstring -> Page -> Page * completion unit.

(** What [switchTool] does once it has found the definition of the key:
    the work on the document, the new tool instance, [setInput] and the
    saved preference. *)
Variable show_tool :
  jsstring -> jsstring * jsstring -> jsstring -> Page -> Page * completion unit.

Variable now : Z.
Variable RegExp_new : jsstring -> jsstring -> completion unit.

(** [switchTool(toolKey, initialContent)] *)
Definition switchTool (toolKey initialContent : jsstring) (p : Page)
  : Page * completion unit :=
  match tool_definition toolKey toolDefinitions with
  | None => (console_error_tool toolKey p, Normal tt)
  | Some definition => show_tool toolKey definition initialContent p
  end.

(** The [onDetect] callback of [setupSmartPaste]. *)
Definition app_onDetect : callback Page PasteEvent :=
  fun result p =>
    let p1 := console_log result p in
    if negb (Nat.eqb (length (p_tool result)) 0)
       && negb (Qle_bool (p_confidence result) (5 # 10))
    then
      let (p2, c) := switchTool (p_tool result) (p_content result) p1 in
      match c with
      | Normal _ => toast_info (js "Detected: " ++ p_displayName result) p2
      | Throw e => (p2, Throw e)
      end
    else switchTool (js "json") (p_content result) p1.

(** The [onError] callback of [setupSmartPaste]. *)
Definition app_onError : callback Page exn :=
  fun error p =>
    toast_error (js "Failed to process pasted content") (console_error_paste error p).

(** [this.smartPaste] *)
Definition app_smartPaste : SmartPaste Page :=
  new_SmartPaste {| opt_onDetect := Some app_onDetect;
                    opt_onError := Some app_onError |}.

(** The listener of the [input] event of the smart paste box, for the
    value the box holds. *)
Definition on_smartPasteInput (value : jsstring) (p : Page) : outcome Page unit :=
  match trim value with
  | [] => idle app_smartPaste p tt
  | content => processContent now RegExp_new app_smartPaste content p
  end.

End Application.

(** * Properties *)

(** ** The derivative matcher decides the language *)

Lemma lang_void_inv (s : jsstring) : lang Void s -> False.
Proof. intro H; inversion H. Qed.

Lemma lang_eps_inv (s : jsstring) : lang Eps s -> s = [].
Proof. intro H; inversion H; reflexivity. Qed.

Lemma lang_class_inv (p : code_unit -> bool) (s : jsstring) :
  lang (Class p) s -> exists c, s = [c] /\ p c = true.
Proof. intro H; inversion H; subst; eauto. Qed.

Lemma lang_cat_inv (r1 r2 : re) (s : jsstring) :
  lang (Cat r1 r2) s -> exists s1 s2, s = s1 ++ s2 /\ lang r1 s1 /\ lang r2 s2.
Proof. intro H; inversion H; subst; eauto. Qed.

Lemma lang_alt_inv (r1 r2 : re) (s : jsstring) :
  lang (Alt r1 r2) s -> lang r1 s \/ lang r2 s.
Proof. intro H; inversion H; subst; auto. Qed.

Lemma lang_cat_cons (r1 r2 : re) (c : code_unit) (s1 s2 : jsstring) :
  lang r1 (c :: s1) -> lang r2 s2 -> lang (Cat r1 r2) (c :: s1 ++ s2).
Proof. intros H1 H2. apply (lang_cat H1 H2). Qed.

Lemma lang_cat_nil_l (r1 r2 : re) (s : jsstring) :
  lang r1 [] -> lang r2 s -> lang (Cat r1 r2) s.
Proof. intros H1 H2. apply (lang_cat H1 H2). Qed.

Lemma nullable_lang (r : re) : nullable r = true <-> lang r [].
Proof.
  induction r; simpl; split; intro H.
  - discriminate.
  - inversion H.
  - constructor.
  - reflexivity.
  - discriminate.
  - inversion H.
  - apply andb_true_iff in H as [H1 H2].
    change (@nil code_unit) with (@nil code_unit ++ []).
    constructor; [apply IHr1 | apply IHr2]; assumption.
  - inversion H; subst.
    destruct s1; [|discriminate]. destruct s2; [|discriminate].
    apply andb_true_iff; split; [apply IHr1 | apply IHr2]; assumption.
  - apply orb_true_iff in H as [H | H];
      [apply lang_alt_l; apply IHr1 | apply lang_alt_r; apply IHr2]; assumption.
  - apply orb_true_iff.
    inversion H; subst; [left; apply IHr1 | right; apply IHr2]; assumption.
  - constructor.
  - reflexivity.
Qed.

Lemma lang_star_uncons (r : re) (s : jsstring) :
  lang (Star r) s ->
  forall c s', s = c :: s' ->
  exists s1 s2, s' = s1 ++ s2 /\ lang r (c :: s1) /\ lang (Star r) s2.
Proof.
  intro H. remember (Star r) as q eqn:Hq.
  induction H; intros c' s' E; try discriminate Hq.
  - discriminate E.
  - injection Hq as ->.
    destruct s1 as [|a s1].
    + simpl in E. apply IHlang2; auto.
    + simpl in E. injection E as -> <-.
      exists s1, s2. auto.
Qed.

Lemma deriv_sound (c : code_unit) (r : re) :
  forall s, lang (deriv c r) s -> lang r (c :: s).
Proof.
  induction r; simpl; intros s H.
  - destruct (lang_void_inv H).
  - destruct (lang_void_inv H).
  - destruct (p c) eqn:Hp.
    + apply lang_eps_inv in H; subst. constructor; assumption.
    + destruct (lang_void_inv H).
  - destruct (nullable r1) eqn:Hn.
    + apply lang_alt_inv in H as [H | H].
      * apply lang_cat_inv in H as (s1 & s2 & -> & H1 & H2).
        apply lang_cat_cons; auto.
      * apply lang_cat_nil_l; [apply nullable_lang; assumption | auto].
    + apply lang_cat_inv in H as (s1 & s2 & -> & H1 & H2).
      apply lang_cat_cons; auto.
  - apply lang_alt_inv in H as [H | H]; [apply lang_alt_l | apply lang_alt_r]; auto.
  - apply lang_cat_inv in H as (s1 & s2 & -> & H1 & H2).
    apply (lang_star_cons (IHr _ H1) H2).
Qed.

Lemma deriv_complete (c : code_unit) (r : re) :
  forall s, lang r (c :: s) -> lang (deriv c r) s.
Proof.
  induction r; simpl; intros s H.
  - destruct (lang_void_inv H).
  - apply lang_eps_inv in H; discriminate H.
  - apply lang_class_inv in H as (a & E & Hp).
    injection E as -> ->. rewrite Hp. constructor.
  - apply lang_cat_inv in H as (s1 & s2 & E & H1 & H2).
    destruct s1 as [|a s1]; simpl in E.
    + subst s2.
      assert (Hn : nullable r1 = true) by (apply nullable_lang; assumption).
      rewrite Hn. apply lang_alt_r; auto.
    + injection E as -> ->.
      destruct (nullable r1).
      * apply lang_alt_l. constructor; auto.
      * constructor; auto.
  - apply lang_alt_inv in H as [H | H]; [apply lang_alt_l | apply lang_alt_r]; auto.
  - destruct (lang_star_uncons H eq_refl) as (s1 & s2 & -> & H1 & H2).
    constructor; auto.
Qed.

Lemma full_match_lang (s : jsstring) :
  forall r, full_match r s = true <-> lang r s.
Proof.
  induction s as [|c s IH]; intro r; simpl.
  - apply nullable_lang.
  - rewrite IH. split; [apply deriv_sound | apply deriv_complete].
Qed.

Lemma prefix_match_lang (s : jsstring) :
  forall r, prefix_match r s = true <->
            exists p q, s = p ++ q /\ lang r p.
Proof.
  induction s as [|c s IH]; intro r; simpl.
  - rewrite orb_false_r, nullable_lang. split.
    + intro H. exists [], []. auto.
    + intros (p & q & E & H). destruct p; [assumption | discriminate].
  - rewrite orb_true_iff, nullable_lang, IH. split.
    + intros [H | (p & q & -> & H)].
      * exists [], (c :: s). auto.
      * exists (c :: p), q. split; [reflexivity | apply deriv_sound; assumption].
    + intros (p & q & E & H). destruct p as [|a p].
      * left; assumption.
      * simpl in E. injection E as -> ->. right.
        exists p, q. split; [reflexivity | apply deriv_complete; assumption].
Qed.

(** ** The languages of the building blocks *)

Lemma lang_star_class (p : code_unit -> bool) (s : jsstring) :
  lang (Star (Class p)) s <-> forallb p s = true.
Proof.
  split.
  - intro H. remember (Star (Class p)) as q eqn:Hq.
    induction H; try discriminate Hq.
    + reflexivity.
    + injection Hq as ->.
      apply lang_class_inv in H as (c & -> & Hc).
      simpl. rewrite Hc. auto.
  - induction s as [|c s IH]; simpl; intro H.
    + constructor.
    + apply andb_true_iff in H as [Hc Hs].
      apply (lang_star_cons (lang_class p c Hc) (IH Hs)).
Qed.

Lemma lang_times_class (p : code_unit -> bool) (n : nat) :
  forall s, lang (Times n (Class p)) s <-> (length s = n /\ forallb p s = true).
Proof.
  induction n as [|n IH]; simpl; intro s.
  - split.
    + intro H. apply lang_eps_inv in H; subst; auto.
    + intros [H _]. destruct s; [constructor | discriminate].
  - split.
    + intro H. apply lang_cat_inv in H as (s1 & s2 & -> & H1 & H2).
      apply lang_class_inv in H1 as (c & -> & Hc).
      apply IH in H2 as [Hl Hp]. simpl. rewrite Hc, Hl, Hp. auto.
    + intros [Hl Hp]. destruct s as [|c s]; [discriminate|].
      simpl in *. apply andb_true_iff in Hp as [Hc Hs].
      apply (lang_cat (lang_class p c Hc)).
      apply IH; split; [lia | assumption].
Qed.

Lemma lang_times_opt_class (p : code_unit -> bool) (k : nat) :
  forall s, lang (Times k (Opt (Class p))) s <->
            (length s <= k /\ forallb p s = true)%nat.
Proof.
  induction k as [|k IH]; simpl; intro s.
  - split.
    + intro H. apply lang_eps_inv in H; subst; auto.
    + intros [H _]. destruct s; [constructor | simpl in H; lia].
  - split.
    + intro H. apply lang_cat_inv in H as (s1 & s2 & -> & H1 & H2).
      apply IH in H2 as [Hl Hp].
      apply lang_alt_inv in H1 as [H1 | H1].
      * apply lang_class_inv in H1 as (c & -> & Hc).
        simpl. rewrite Hc, Hp. split; [lia | reflexivity].
      * apply lang_eps_inv in H1; subst. simpl. split; [lia | assumption].
    + intros [Hl Hp]. destruct s as [|c s].
      * apply lang_cat_nil_l; [apply lang_alt_r; constructor|].
        apply IH; simpl; split; [lia | reflexivity].
      * simpl in *. apply andb_true_iff in Hp as [Hc Hs].
        apply (lang_cat (lang_alt_l _ (lang_class p c Hc))).
        apply IH; split; [lia | assumption].
Qed.

(** ** Character classes *)

Ltac reduce_literals :=
  repeat match goal with
         | |- context [cu ?a] =>
             let v := eval vm_compute in (cu a) in change (cu a) with v
         | H : context [cu ?a] |- _ =>
             let v := eval vm_compute in (cu a) in change (cu a) with v in H
         end.

Ltac bool_to_prop :=
  repeat rewrite ?andb_true_iff, ?orb_true_iff, ?negb_true_iff,
    ?andb_false_iff, ?orb_false_iff, ?negb_false_iff,
    ?N.eqb_eq, ?N.eqb_neq, ?N.leb_le, ?N.leb_gt, ?N.ltb_lt, ?N.ltb_ge in *.

Ltac class_arith :=
  unfold is_base64_char, is_base64url_char, is_alnum, is_upper, is_lower,
    is_digit, is_space, is_white_space, is_line_terminator, is_open_bracket,
    is_flag, is_dot_char, is_printable, is_ascii_whitespace, in_range in *;
  reduce_literals; bool_to_prop; lia.

Lemma digit_is_base64_char (c : code_unit) :
  is_digit c = true -> is_base64_char c = true.
Proof. intro H. class_arith. Qed.

Lemma digit_not_space (c : code_unit) :
  is_digit c = true -> is_space c = false.
Proof. intro H. class_arith. Qed.

Lemma digit_not_open_bracket (c : code_unit) :
  is_digit c = true -> is_open_bracket c = false.
Proof. intro H. class_arith. Qed.

Lemma digit_not_slash (c : code_unit) :
  is_digit c = true -> (cu "/" =? c) = false.
Proof. intro H. class_arith. Qed.

Lemma digit_not_dot (c : code_unit) :
  is_digit c = true -> (cu "." =? c) = false.
Proof. intro H. class_arith. Qed.

Lemma base64_char_not_dot (c : code_unit) :
  is_base64_char c = true -> (cu "." =? c) = false.
Proof. intro H. class_arith. Qed.

Lemma base64_char_not_space (c : code_unit) :
  is_base64_char c = true -> is_space c = false.
Proof. intro H. class_arith. Qed.

Lemma base64_char_not_open_bracket (c : code_unit) :
  is_base64_char c = true -> is_open_bracket c = false.
Proof. intro H. class_arith. Qed.

Lemma base64url_char_not_slash (c : code_unit) :
  is_base64url_char c = true -> (cu "/" =? c) = false.
Proof. intro H. class_arith. Qed.

Lemma base64url_char_not_open_bracket (c : code_unit) :
  is_base64url_char c = true -> is_open_bracket c = false.
Proof. intro H. class_arith. Qed.

Lemma base64url_char_not_space (c : code_unit) :
  is_base64url_char c = true -> is_space c = false.
Proof. intro H. class_arith. Qed.

Lemma open_bracket_not_slash (c : code_unit) :
  is_open_bracket c = true -> (cu "/" =? c) = false.
Proof. intro H. class_arith. Qed.

Lemma space_not_slash (c : code_unit) :
  is_space c = true -> (cu "/" =? c) = false.
Proof. intro H. class_arith. Qed.

(** ** What the five patterns accept *)

Lemma lang_plus_class (p : code_unit -> bool) (s : jsstring) :
  lang (Plus (Class p)) s <-> (s <> [] /\ forallb p s = true).
Proof.
  unfold Plus. split.
  - intro H. apply lang_cat_inv in H as (s1 & s2 & -> & H1 & H2).
    apply lang_class_inv in H1 as (c & -> & Hc).
    apply lang_star_class in H2. simpl. rewrite Hc, H2.
    split; [discriminate | reflexivity].
  - intros [Hne Hp]. destruct s as [|c s]; [contradiction|].
    simpl in Hp. apply andb_true_iff in Hp as [Hc Hs].
    apply (lang_cat (lang_class p c Hc)). apply lang_star_class; assumption.
Qed.

Lemma lang_lit_inv (a : ascii) (s : jsstring) :
  lang (Lit a) s -> s = [cu a].
Proof.
  intro H. apply lang_class_inv in H as (c & -> & Hc).
  apply N.eqb_eq in Hc. subst. reflexivity.
Qed.

Lemma unixTimestamp_pattern_spec (s : jsstring) :
  test unixTimestamp_pattern s = true <->
  (all_digits s = true /\ 10 <= length s <= 13)%nat.
Proof.
  unfold test, unixTimestamp_pattern, Between, all_digits; cbn [end_anchor body].
  rewrite full_match_lang. split.
  - intro H. apply lang_cat_inv in H as (s1 & s2 & -> & H1 & H2).
    apply lang_times_class in H1 as [L1 P1].
    apply lang_times_opt_class in H2 as [L2 P2].
    rewrite forallb_app, P1, P2, length_app. split; [reflexivity | lia].
  - intros [Hd Hl].
    rewrite <- (firstn_skipn 10 s) in Hd |- *.
    rewrite forallb_app in Hd. apply andb_true_iff in Hd as [P1 P2].
    apply lang_cat.
    + apply lang_times_class. split; [|assumption].
      rewrite length_firstn. lia.
    + apply lang_times_opt_class. split; [|assumption].
      rewrite length_skipn. lia.
Qed.

Lemma base64_pattern_spec (s : jsstring) :
  test base64_pattern s = true <->
  (forallb is_base64_char s = true /\ 20 <= length s)%nat.
Proof.
  unfold test, base64_pattern, AtLeast; cbn [end_anchor body].
  rewrite full_match_lang. split.
  - intro H. apply lang_cat_inv in H as (s1 & s2 & -> & H1 & H2).
    apply lang_times_class in H1 as [L1 P1].
    apply lang_star_class in H2.
    rewrite forallb_app, P1, H2, length_app. split; [reflexivity | lia].
  - intros [Hd Hl].
    rewrite <- (firstn_skipn 20 s) in Hd |- *.
    rewrite forallb_app in Hd. apply andb_true_iff in Hd as [P1 P2].
    apply lang_cat.
    + apply lang_times_class. split; [|assumption].
      rewrite length_firstn. lia.
    + apply lang_star_class. assumption.
Qed.

Lemma jwt_pattern_spec (s : jsstring) :
  test jwt_pattern s = true <->
  exists a b c,
    s = a ++ cu "." :: b ++ cu "." :: c /\
    a <> [] /\ b <> [] /\
    forallb is_base64url_char a = true /\
    forallb is_base64url_char b = true /\
    forallb is_base64url_char c = true.
Proof.
  unfold test, jwt_pattern; cbn [end_anchor body].
  rewrite full_match_lang. split.
  - intro H.
    apply lang_cat_inv in H as (a & s1 & -> & Ha & H).
    apply lang_cat_inv in H as (d1 & s2 & -> & Hd1 & H).
    apply lang_cat_inv in H as (b & s3 & -> & Hb & H).
    apply lang_cat_inv in H as (d2 & c & -> & Hd2 & Hc).
    apply lang_lit_inv in Hd1, Hd2. subst.
    apply lang_plus_class in Ha as [? ?], Hb as [? ?].
    apply lang_star_class in Hc.
    exists a, b, c. simpl. auto 10.
  - intros (a & b & c & -> & Ha & Hb & Pa & Pb & Pc).
    apply lang_cat; [apply lang_plus_class; auto|].
    apply (lang_cat (s1 := [cu "."])); [constructor; apply N.eqb_refl|].
    apply lang_cat; [apply lang_plus_class; auto|].
    apply (lang_cat (s1 := [cu "."])); [constructor; apply N.eqb_refl|].
    apply lang_star_class; assumption.
Qed.

Lemma jwt_pattern_has_dot (s : jsstring) :
  test jwt_pattern s = true -> includes (cu ".") s = true.
Proof.
  intro H. apply jwt_pattern_spec in H as (a & b & c & -> & _).
  unfold includes. rewrite existsb_app. cbn [existsb]. rewrite N.eqb_refl.
  apply orb_true_r.
Qed.

Lemma jwt_pattern_head (s : jsstring) :
  test jwt_pattern s = true ->
  exists c rest, s = c :: rest /\ is_base64url_char c = true.
Proof.
  intro H. apply jwt_pattern_spec in H as (a & b & c & -> & Ha & _ & Pa & _).
  destruct a as [|x a]; [contradiction|].
  simpl in Pa. apply andb_true_iff in Pa as [Px _].
  exists x, (a ++ cu "." :: b ++ cu "." :: c). auto.
Qed.

Lemma json_pattern_head (s : jsstring) :
  test json_pattern s = true ->
  exists c rest, s = c :: rest /\ (is_space c = true \/ is_open_bracket c = true).
Proof.
  unfold test, json_pattern; cbn [end_anchor body].
  rewrite prefix_match_lang. intros (p & q & -> & H).
  apply lang_cat_inv in H as (sp & b & -> & Hsp & Hb).
  apply lang_class_inv in Hb as (c & -> & Hc).
  apply lang_star_class in Hsp.
  destruct sp as [|x sp]; simpl.
  - exists c, q. auto.
  - simpl in Hsp. apply andb_true_iff in Hsp as [Hx _].
    exists x, ((sp ++ [c]) ++ q). auto.
Qed.

Lemma regex_pattern_head (s : jsstring) :
  test regex_pattern s = true -> exists rest, s = cu "/" :: rest.
Proof.
  unfold test, regex_pattern; cbn [end_anchor body].
  rewrite full_match_lang. intro H.
  apply lang_cat_inv in H as (d & rest & -> & Hd & _).
  apply lang_lit_inv in Hd. subst. exists rest. reflexivity.
Qed.

Lemma includes_false_forall (c : code_unit) (p : code_unit -> bool) (s : jsstring) :
  (forall x, p x = true -> (c =? x) = false) ->
  forallb p s = true -> includes c s = false.
Proof.
  intros Hp. unfold includes. induction s as [|x s IH]; simpl; intro H.
  - reflexivity.
  - apply andb_true_iff in H as [Hx Hs]. rewrite (Hp x Hx), IH; auto.
Qed.

(** ** The captures of the regex literal *)

Lemma regex_pattern_spec (s : jsstring) :
  test regex_pattern s = true <->
  exists source flags,
    s = cu "/" :: source ++ cu "/" :: flags /\
    forallb is_dot_char source = true /\
    forallb is_flag flags = true.
Proof.
  unfold test, regex_pattern; cbn [end_anchor body].
  rewrite full_match_lang. split.
  - intro H.
    apply lang_cat_inv in H as (d1 & s1 & -> & Hd1 & H).
    apply lang_cat_inv in H as (a & s2 & -> & Ha & H).
    apply lang_cat_inv in H as (d2 & f & -> & Hd2 & Hf).
    apply lang_lit_inv in Hd1, Hd2. subst.
    apply lang_star_class in Ha, Hf.
    exists a, f. auto.
  - intros (a & f & -> & Ha & Hf).
    apply (lang_cat (s1 := [cu "/"])); [constructor; apply N.eqb_refl|].
    apply lang_cat; [apply lang_star_class; assumption|].
    apply (lang_cat (s1 := [cu "/"])); [constructor; apply N.eqb_refl|].
    apply lang_star_class; assumption.
Qed.

Lemma split_last_slash_none (s : jsstring) :
  split_last_slash s = None <-> includes (cu "/") s = false.
Proof.
  unfold includes. induction s as [|c s IH]; cbn [split_last_slash existsb].
  - tauto.
  - destruct (split_last_slash s) as [[b a]|]; cbn iota.
    + split; [intro X; discriminate X|]. intro H.
      apply orb_false_iff in H as [_ H]. apply IH in H. discriminate H.
    + rewrite (N.eqb_sym c). destruct (cu "/" =? c); simpl.
      * split; intro X; discriminate X.
      * tauto.
Qed.

Lemma split_last_slash_spec (s before after : jsstring) :
  split_last_slash s = Some (before, after) <->
  (s = before ++ cu "/" :: after /\ includes (cu "/") after = false).
Proof.
  revert before. induction s as [|c s IH]; intros before; cbn [split_last_slash].
  - split; [intro X; discriminate X|]. intros [E _]. destruct before; discriminate E.
  - destruct (split_last_slash s) as [[b a]|] eqn:Es; cbn iota.
    + split.
      * intro E. injection E as <- <-.
        destruct (proj1 (IH b) eq_refl) as [-> Ha]. auto.
      * intros [E Ha]. destruct before as [|x before]; simpl in E.
        -- injection E as -> ->.
           apply split_last_slash_none in Ha. rewrite Ha in Es. discriminate Es.
        -- injection E as <- ->.
           assert (Hs : Some (b, a) = Some (before, after))
             by (apply IH; auto).
           injection Hs as -> ->. reflexivity.
    + apply split_last_slash_none in Es. split.
      * destruct (c =? cu "/") eqn:Ec; [|discriminate].
        intro E. injection E as <- <-. apply N.eqb_eq in Ec. subst c. auto.
      * intros [E Ha]. destruct before as [|x before]; simpl in E.
        -- injection E as -> ->. rewrite N.eqb_refl. reflexivity.
        -- injection E as <- ->. unfold includes in Es.
           rewrite existsb_app in Es. cbn [existsb] in Es.
           rewrite N.eqb_refl, orb_true_r in Es. discriminate Es.
Qed.

Lemma flags_no_slash (flags : jsstring) :
  forallb is_flag flags = true -> includes (cu "/") flags = false.
Proof.
  apply includes_false_forall. intros x Hx. class_arith.
Qed.

(** The match of [regex.validate] succeeds exactly on the texts the pattern
    of the regex descriptor accepts, and its captures are the text between
    the first and the last slash and the text after the last slash. *)
Lemma regex_literal_match_spec (s source flags : jsstring) :
  regex_literal_match s = Some (source, flags) <->
  (s = cu "/" :: source ++ cu "/" :: flags /\
   forallb is_dot_char source = true /\
   forallb is_flag flags = true).
Proof.
  unfold regex_literal_match. destruct s as [|c rest].
  - split; [intro X; discriminate X | intros [E _]; discriminate E].
  - destruct (c =? cu "/") eqn:Ec.
    + apply N.eqb_eq in Ec. subst c.
      destruct (split_last_slash rest) as [[b a]|] eqn:Es; cbn iota.
      * apply split_last_slash_spec in Es as [-> Ha].
        destruct (forallb is_dot_char b && forallb is_flag a) eqn:Hc.
        -- apply andb_true_iff in Hc as [Hb Hf]. split.
           ++ intro E. injection E as <- <-. auto.
           ++ intros (E & Hs & Hfl). injection E as E.
              assert (Hx : Some (b, a) = Some (source, flags)).
              { rewrite <- (proj2 (split_last_slash_spec (b ++ cu "/" :: a) b a)) by auto.
                apply split_last_slash_spec. split; [assumption|].
                apply flags_no_slash, Hfl. }
              assumption.
        -- split; [intro X; discriminate X|]. intros (E & Hs & Hfl). injection E as E.
           assert (Hx : Some (b, a) = Some (source, flags)).
           { rewrite <- (proj2 (split_last_slash_spec (b ++ cu "/" :: a) b a)) by auto.
             apply split_last_slash_spec. split; [assumption|].
             apply flags_no_slash, Hfl. }
           injection Hx as -> ->. rewrite Hs, Hfl in Hc. discriminate Hc.
      * split; [intro X; discriminate X|]. intros (E & _). injection E as ->.
        apply split_last_slash_none in Es. unfold includes in Es.
        rewrite existsb_app in Es. cbn [existsb] in Es.
        rewrite N.eqb_refl, orb_true_r in Es. discriminate Es.
    + split; [intro X; discriminate X|]. intros (E & _). injection E as -> _.
      rewrite N.eqb_refl in Ec. discriminate Ec.
Qed.

Lemma regex_pattern_match (s : jsstring) :
  test regex_pattern s = true <->
  exists source flags, regex_literal_match s = Some (source, flags).
Proof.
  rewrite regex_pattern_spec. split.
  - intros (a & f & H). exists a, f. apply regex_literal_match_spec, H.
  - intros (a & f & H). exists a, f. apply regex_literal_match_spec, H.
Qed.

(** ** [trim] *)

Lemma trimStart_head (s : jsstring) (c : code_unit) :
  hd_error (trimStart s) = Some c -> is_space c = false.
Proof.
  induction s as [|x s IH]; simpl.
  - discriminate.
  - destruct (is_space x) eqn:Hx; [assumption|].
    simpl. intro E. injection E as <-. assumption.
Qed.

Lemma trimStart_id (s : jsstring) :
  (forall c, hd_error s = Some c -> is_space c = false) -> trimStart s = s.
Proof.
  destruct s as [|x s]; simpl; intro H; [reflexivity|].
  rewrite (H x eq_refl). reflexivity.
Qed.

Lemma trimStart_suffix (s : jsstring) :
  exists pre, s = pre ++ trimStart s.
Proof.
  induction s as [|x s (pre & IH)]; simpl.
  - exists []. reflexivity.
  - destruct (is_space x).
    + exists (x :: pre). simpl. rewrite <- IH. reflexivity.
    + exists []. reflexivity.
Qed.

Lemma trimEnd_prefix (s : jsstring) :
  exists post, s = trimEnd s ++ post.
Proof.
  unfold trimEnd. destruct (trimStart_suffix (rev s)) as (pre & E).
  exists (rev pre). rewrite <- rev_app_distr, <- E, rev_involutive. reflexivity.
Qed.

Lemma trimEnd_id (s : jsstring) :
  (forall c, hd_error (rev s) = Some c -> is_space c = false) -> trimEnd s = s.
Proof.
  intro H. unfold trimEnd. rewrite (trimStart_id _ H). apply rev_involutive.
Qed.

Lemma trimEnd_last (s : jsstring) (c : code_unit) :
  hd_error (rev (trimEnd s)) = Some c -> is_space c = false.
Proof.
  unfold trimEnd. rewrite rev_involutive. apply trimStart_head.
Qed.

Lemma trimEnd_head (s : jsstring) :
  (forall c, hd_error s = Some c -> is_space c = false) ->
  forall c, hd_error (trimEnd s) = Some c -> is_space c = false.
Proof.
  intros H c Hc. destruct (trimEnd_prefix s) as (post & E).
  apply H. rewrite E. destruct (trimEnd s); [discriminate | assumption].
Qed.

Lemma trim_id (s : jsstring) :
  (forall c, hd_error s = Some c -> is_space c = false) ->
  (forall c, hd_error (rev s) = Some c -> is_space c = false) ->
  trim s = s.
Proof.
  intros Hh Hl. unfold trim. rewrite (trimStart_id _ Hh). apply trimEnd_id, Hl.
Qed.

Lemma trim_head (s : jsstring) (c : code_unit) :
  hd_error (trim s) = Some c -> is_space c = false.
Proof.
  unfold trim. apply trimEnd_head. intro x. apply trimStart_head.
Qed.

Lemma trim_trim (s : jsstring) : trim (trim s) = trim s.
Proof.
  apply trim_id.
  - intro c. apply trim_head.
  - intro c. unfold trim. apply trimEnd_last.
Qed.

Lemma forallb_hd (p : code_unit -> bool) (s : jsstring) (c : code_unit) :
  forallb p s = true -> hd_error s = Some c -> p c = true.
Proof.
  destruct s as [|x s]; simpl; [discriminate|].
  intros H E. injection E as <-. apply andb_true_iff in H as [H _]. assumption.
Qed.

Lemma forallb_rev (p : code_unit -> bool) (s : jsstring) :
  forallb p (rev s) = forallb p s.
Proof.
  induction s as [|x s IH]; simpl; [reflexivity|].
  rewrite forallb_app, IH. simpl. rewrite andb_true_r. apply andb_comm.
Qed.

Lemma trim_no_space (p : code_unit -> bool) (s : jsstring) :
  (forall c, p c = true -> is_space c = false) ->
  forallb p s = true -> trim s = s.
Proof.
  intros Hp Hs. apply trim_id; intros c Hc; apply Hp.
  - apply (forallb_hd _ _ Hs Hc).
  - apply (forallb_hd p (rev s)); [rewrite forallb_rev|]; assumption.
Qed.

Lemma trim_digits (s : jsstring) : all_digits s = true -> trim s = s.
Proof. apply trim_no_space, digit_not_space. Qed.

(** ** The validators never throw *)

Lemma try_catch_false_normal (body : completion bool) :
  exists b, try_catch body (fun _ => Normal false) = Normal b.
Proof. destruct body as [b | e]; simpl; eauto. Qed.

Lemma jwt_validate_normal (content : jsstring) :
  exists b, jwt_validate content = Normal b.
Proof.
  unfold jwt_validate.
  destruct (split (cu ".") (trim content)) as [|p0 [|p1 [|p2 [|p3 ps]]]];
    eauto using try_catch_false_normal.
Qed.

Lemma json_validate_normal (content : jsstring) :
  exists b, json_validate content = Normal b.
Proof. apply try_catch_false_normal. Qed.

Lemma base64_validate_normal (content : jsstring) :
  exists b, base64_validate content = Normal b.
Proof.
  unfold base64_validate.
  destruct (includes (cu ".") (trim content)); eauto using try_catch_false_normal.
Qed.

Lemma unixTimestamp_validate_normal (now : Z) (content : jsstring) :
  exists b, unixTimestamp_validate now content = Normal b.
Proof.
  unfold unixTimestamp_validate.
  destruct (parseInt10 (trim content)); eauto.
  destruct (Nat.eqb (length content) 10); eauto.
  destruct (Nat.eqb (length content) 13); eauto.
Qed.

Lemma regex_validate_normal
  (RegExp_new : jsstring -> jsstring -> completion unit) (content : jsstring) :
  exists b, regex_validate RegExp_new content = Normal b.
Proof. apply try_catch_false_normal. Qed.

Section Detector.

Variable now : Z.
Variable RegExp_new : jsstring -> jsstring -> completion unit.

Let table := DETECTION_PATTERNS now RegExp_new.
Let result := result_of now RegExp_new.

Lemma validate_normal (k : format_key) (content : jsstring) :
  exists b, validate (table k) content = Normal b.
Proof.
  destruct k; simpl.
  - apply jwt_validate_normal.
  - apply json_validate_normal.
  - apply base64_validate_normal.
  - apply unixTimestamp_validate_normal.
  - apply regex_validate_normal.
Qed.

(** The loop pushes, in the order of the keys, the results of the keys that
    pass both tests. *)
Lemma detect_loop_spec (trimmed : jsstring) (keys : list format_key) :
  forall results,
    detect_loop now RegExp_new keys trimmed results =
    Normal (results ++ map result (filter (passes now RegExp_new trimmed) keys)).
Proof.
  induction keys as [|k keys IH]; intro results; simpl.
  - rewrite app_nil_r. reflexivity.
  - unfold passes at 1. fold table.
    destruct (test (pattern (table k)) trimmed); simpl.
    + destruct (validate_normal k trimmed) as [b ->]. simpl.
      destruct b; rewrite IH; [rewrite <- app_assoc|]; reflexivity.
    + apply IH.
Qed.

Lemma passes_nil (k : format_key) : passes now RegExp_new [] k = false.
Proof. destruct k; reflexivity. Qed.

End Detector.

(** ** The sort puts first the earliest result of greatest confidence *)

Lemma by_confidence_le (a b : DetectionResult) :
  Qle_bool (by_confidence a b) 0 = true <-> (confidence b <= confidence a)%Q.
Proof. unfold by_confidence. rewrite Qle_bool_iff. split; intro; lra. Qed.

Lemma sort_insert_head (x : DetectionResult) (l : list DetectionResult) :
  exists rest,
    sort_insert by_confidence x l =
    match l with
    | [] => x
    | y :: _ => if Qle_bool (by_confidence x y) 0 then x else y
    end :: rest.
Proof.
  destruct l as [|y l]; simpl; [eauto|].
  destruct (Qle_bool (by_confidence x y) 0); eauto.
Qed.

Lemma Array_sort_head (l : list DetectionResult) :
  l <> [] ->
  exists before best after rest,
    l = before ++ best :: after /\
    Array_sort by_confidence l = best :: rest /\
    (forall y, In y before -> (confidence y < confidence best)%Q) /\
    (forall y, In y after -> (confidence y <= confidence best)%Q).
Proof.
  induction l as [|x l IH]; intro Hne; [contradiction|].
  destruct l as [|x' l'].
  - exists [], x, [], []. simpl. repeat split; intros y [].
  - destruct IH as (before & best & after & rest & E & Hs & Hb & Ha); [discriminate|].
    change (Array_sort by_confidence (x :: x' :: l'))
      with (sort_insert by_confidence x (Array_sort by_confidence (x' :: l'))).
    rewrite Hs. destruct (sort_insert_head x (best :: rest)) as [rest' ->].
    destruct (Qle_bool (by_confidence x best) 0) eqn:Hle.
    + apply by_confidence_le in Hle.
      exists [], x, (x' :: l'), rest'. repeat split; [intros y [] |].
      intros y Hy. rewrite E in Hy.
      apply in_app_or in Hy as [Hy | [<- | Hy]].
      * specialize (Hb y Hy). lra.
      * assumption.
      * specialize (Ha y Hy). lra.
    + assert (Hlt : (confidence x < confidence best)%Q).
      { apply Qnot_le_lt. intro Hc. apply by_confidence_le in Hc. congruence. }
      exists (x :: before), best, after, rest'. rewrite E.
      repeat split; [| assumption].
      intros y [<- | Hy]; auto.
Qed.

Section Classifier.

Variable now : Z.
Variable RegExp_new : jsstring -> jsstring -> completion unit.

Let result := result_of now RegExp_new.
Let confidence_of (k : format_key) : Q :=
  d_confidence (DETECTION_PATTERNS now RegExp_new k).

(** What [detectFormat] returns, from the keys that pass on the trimmed
    text, taken in the order of [DETECTION_ORDER]. *)
Lemma detectFormat_none (content : jsstring) :
  filter (passes now RegExp_new (trim content)) DETECTION_ORDER = [] ->
  detectFormat now RegExp_new content = Normal None.
Proof.
  intro H. unfold detectFormat. destruct content as [|c content]; [reflexivity|].
  destruct (Nat.eqb (length (trim (c :: content))) 0); [reflexivity|].
  rewrite detect_loop_spec, H. reflexivity.
Qed.

Lemma filter_passes_nil (content : jsstring) :
  trim content = [] ->
  filter (passes now RegExp_new (trim content)) DETECTION_ORDER = [].
Proof.
  intros ->. unfold DETECTION_ORDER. cbn [filter]. rewrite !passes_nil. reflexivity.
Qed.

Lemma detectFormat_best (content : jsstring) :
  filter (passes now RegExp_new (trim content)) DETECTION_ORDER <> [] ->
  exists before k after,
    filter (passes now RegExp_new (trim content)) DETECTION_ORDER
    = before ++ k :: after /\
    detectFormat now RegExp_new content = Normal (Some (result k)) /\
    (forall k', In k' before -> (confidence_of k' < confidence_of k)%Q) /\
    (forall k', In k' after -> (confidence_of k' <= confidence_of k)%Q).
Proof.
  intro Hne.
  assert (Ht : trim content <> []).
  { intro E. apply Hne, filter_passes_nil, E. }
  unfold detectFormat. destruct content as [|c content]; [contradiction Ht; reflexivity|].
  destruct (trim (c :: content)) as [|t ts] eqn:Etrim; [contradiction|].
  cbn [length Nat.eqb]. rewrite detect_loop_spec. cbn [app bind].
  set (ks := filter (passes now RegExp_new (t :: ts)) DETECTION_ORDER) in *.
  destruct (@Array_sort_head (map result ks))
    as (rb & best & ra & rest & E & Hs & Hb & Ha).
  { destruct ks; [contradiction | discriminate]. }
  apply map_eq_app in E as (before & tl & Eks & <- & E).
  apply map_eq_cons in E as (k & after & -> & <- & <-).
  exists before, k, after. fold result. rewrite Hs.
  repeat split; [assumption | |].
  - intros k' Hk. apply (Hb (result k')). apply in_map, Hk.
  - intros k' Hk. apply (Ha (result k')). apply in_map, Hk.
Qed.

End Classifier.

(** ** The host models on the texts of the specification *)

Example atob_scenario_5 :
  atob (js "SGVsbG8sIFdvcmxkIQ==") = Normal (js "Hello, World!").
Proof. reflexivity. Qed.

Example atob_rejects_bad_length : atob (js "SGVsb") = Throw InvalidCharacterError.
Proof. reflexivity. Qed.

Example atob_rejects_inner_padding : atob (js "SG=sbG8s") = Throw InvalidCharacterError.
Proof. reflexivity. Qed.

Example decode_part_scenario_2_header :
  decode_part (js "eyJhbGciOiJIUzI1NiIsInR5cCI6IkpXVCJ9")
  = Normal (JObj [(js "alg", JStr (js "HS256")); (js "typ", JStr (js "JWT"))]).
Proof. reflexivity. Qed.

Example JSON_parse_nested :
  JSON.parse (js " [1, -2.5e3, true, null, {}] ")
  = Normal (JArr [JNum {| neg := false; digits := 1; exp10 := 0 |};
                  JNum {| neg := true; digits := 25; exp10 := 2 |};
                  JBool true; JNull; JObj []]).
Proof. reflexivity. Qed.

Example JSON_parse_rejects_trailing_comma :
  JSON.parse (js "[1,]") = Throw SyntaxError.
Proof. reflexivity. Qed.

Example JSON_parse_rejects_leading_zero :
  JSON.parse (js "01") = Throw SyntaxError.
Proof. reflexivity. Qed.

Example detectFormat_scenario_1 :
  detectFormat 1700000000000 RegExp_new_plain (js "{" ++ 34 :: js "a" ++ 34 :: js ":1}")
  = Normal (Some {| format := js "json"; tool := js "json"; confidence := 9 # 10 |}).
Proof. reflexivity. Qed.

Example detectFormat_scenario_6 :
  detectFormat 1700000000000 RegExp_new_plain (js "not a recognizable format at all")
  = Normal None.
Proof. reflexivity. Qed.

(** ** The classifier returns the earliest candidate of greatest confidence *)

(** C1. When more than one descriptor passes both of its tests on the
    trimmed text, [detectFormat] returns the result of one of them, [k]:
    every passing descriptor visited before [k] in [DETECTION_ORDER] has a
    strictly smaller confidence and every one visited after it has a
    confidence at most that of [k].  So the confidence returned is the
    greatest among the passing descriptors, and of those that reach it the
    first in the order jwt, json, unixTimestamp, regex, base64 is
    returned. *)
Theorem detectFormat_greatest_confidence_first
  (now : Z) (RegExp_new : jsstring -> jsstring -> completion unit)
  (content : jsstring) :
  (1 < length (filter (passes now RegExp_new (trim content)) DETECTION_ORDER))%nat ->
  exists before k after,
    filter (passes now RegExp_new (trim content)) DETECTION_ORDER
    = before ++ k :: after /\
    detectFormat now RegExp_new content
    = Normal (Some {| format := key_name k;
                      tool := d_tool (DETECTION_PATTERNS now RegExp_new k);
                      confidence := d_confidence (DETECTION_PATTERNS now RegExp_new k) |}) /\
    (forall k', In k' before ->
       (d_confidence (DETECTION_PATTERNS now RegExp_new k')
        < d_confidence (DETECTION_PATTERNS now RegExp_new k))%Q) /\
    (forall k', In k' after ->
       (d_confidence (DETECTION_PATTERNS now RegExp_new k')
        <= d_confidence (DETECTION_PATTERNS now RegExp_new k))%Q).
Proof.
  intro H. apply detectFormat_best.
  intro E. rewrite E in H. simpl in H. lia.
Qed.

(** A regular-expression literal of 24 characters of the base64 alphabet
    passes both as regex and as base64; the regex result is returned. *)
Lemma detectFormat_greatest_confidence_first_witness :
  (1 < length (filter (passes 1700000000000 RegExp_new_plain
                         (trim (js "/abcdefghijklmnopqrstuv/")))
                      DETECTION_ORDER))%nat /\
  exists before k after,
    filter (passes 1700000000000 RegExp_new_plain
              (trim (js "/abcdefghijklmnopqrstuv/"))) DETECTION_ORDER
    = before ++ k :: after /\
    detectFormat 1700000000000 RegExp_new_plain (js "/abcdefghijklmnopqrstuv/")
    = Normal (Some {| format := key_name k;
                      tool := d_tool (DETECTION_PATTERNS 1700000000000 RegExp_new_plain k);
                      confidence :=
                        d_confidence (DETECTION_PATTERNS 1700000000000 RegExp_new_plain k) |}) /\
    (forall k', In k' before ->
       (d_confidence (DETECTION_PATTERNS 1700000000000 RegExp_new_plain k')
        < d_confidence (DETECTION_PATTERNS 1700000000000 RegExp_new_plain k))%Q) /\
    (forall k', In k' after ->
       (d_confidence (DETECTION_PATTERNS 1700000000000 RegExp_new_plain k')
        <= d_confidence (DETECTION_PATTERNS 1700000000000 RegExp_new_plain k))%Q).
Proof.
  split.
  - vm_compute. lia.
  - apply detectFormat_greatest_confidence_first. vm_compute. lia.
Defined.

(** ** Strings of digits *)

Lemma digits_fail_jwt (s : jsstring) :
  all_digits s = true -> test jwt_pattern s = false.
Proof.
  intro Hd. destruct (test jwt_pattern s) eqn:E; [|reflexivity].
  apply jwt_pattern_has_dot in E.
  rewrite (@includes_false_forall (cu ".") is_digit s digit_not_dot Hd) in E. discriminate.
Qed.

Lemma digits_fail_json (s : jsstring) :
  all_digits s = true -> test json_pattern s = false.
Proof.
  intro Hd. destruct (test json_pattern s) eqn:E; [|reflexivity].
  apply json_pattern_head in E as (c & rest & -> & Hc).
  simpl in Hd. apply andb_true_iff in Hd as [Hd _].
  rewrite (@digit_not_space c Hd), (@digit_not_open_bracket c Hd) in Hc.
  destruct Hc; discriminate.
Qed.

Lemma digits_fail_regex (s : jsstring) :
  all_digits s = true -> test regex_pattern s = false.
Proof.
  intro Hd. destruct (test regex_pattern s) eqn:E; [|reflexivity].
  apply regex_pattern_head in E as (rest & ->).
  unfold all_digits in Hd. cbn [forallb] in Hd.
  apply andb_true_iff in Hd as [Hd _].
  apply digit_not_slash in Hd. rewrite N.eqb_refl in Hd. discriminate.
Qed.

Lemma short_fails_base64 (s : jsstring) :
  (length s < 20)%nat -> test base64_pattern s = false.
Proof.
  intro Hl. destruct (test base64_pattern s) eqn:E; [|reflexivity].
  apply base64_pattern_spec in E. lia.
Qed.

Lemma parseInt10_digits (s : jsstring) :
  all_digits s = true -> s <> [] -> parseInt10 s = Some (digits_number s).
Proof.
  intros Hd Hne. destruct s as [|c s]; [contradiction|].
  pose proof Hd as Hall.
  simpl in Hd. apply andb_true_iff in Hd as [Hc _].
  unfold parseInt10. cbn [trimStart]. rewrite (@digit_not_space c Hc).
  replace (c =? cu "-") with false by (symmetry; class_arith).
  replace (c =? cu "+") with false by (symmetry; class_arith).
  unfold parse_digits. rewrite Hc. reflexivity.
Qed.

(** On a non-empty string of digits the timestamp validator compares the
    number with the clock, by the length. *)
Lemma unixTimestamp_validate_digits (now : Z) (s : jsstring) :
  all_digits s = true -> s <> [] ->
  unixTimestamp_validate now s =
  Normal (if Nat.eqb (length s) 10 then
            (0 <? digits_number s)%Z
            && (digits_number s * 1000 <? now + 1577836800 * 1000)%Z
          else if Nat.eqb (length s) 13 then
            (0 <? digits_number s)%Z
            && (digits_number s <? now + 1577836800000)%Z
          else false).
Proof.
  intros Hd Hne. unfold unixTimestamp_validate.
  rewrite (@trim_digits s Hd), (@parseInt10_digits s Hd Hne).
  destruct (Nat.eqb (length s) 10); [reflexivity|].
  destruct (Nat.eqb (length s) 13); reflexivity.
Qed.

Section DigitStrings.

Variable now : Z.
Variable RegExp_new : jsstring -> jsstring -> completion unit.

(** Only the timestamp descriptor can pass on a string of ten to thirteen
    digits, and it passes when its validator accepts. *)
Lemma filter_passes_digits (s : jsstring) :
  all_digits s = true -> (10 <= length s <= 13)%nat ->
  filter (passes now RegExp_new s) DETECTION_ORDER =
  match unixTimestamp_validate now s with
  | Normal true => [unixTimestamp]
  | _ => []
  end.
Proof.
  intros Hd Hl. unfold DETECTION_ORDER, passes. cbn [filter].
  cbn [DETECTION_PATTERNS pattern validate].
  rewrite (@digits_fail_jwt s Hd), (@digits_fail_json s Hd),
    (@digits_fail_regex s Hd), short_fails_base64 by lia.
  cbn [andb].
  assert (Hp : test unixTimestamp_pattern s = true)
    by (apply unixTimestamp_pattern_spec; auto).
  rewrite Hp. cbn [andb].
  destruct (unixTimestamp_validate now s) as [[|]|]; reflexivity.
Qed.

Lemma detectFormat_single (content : jsstring) (k : format_key) :
  filter (passes now RegExp_new (trim content)) DETECTION_ORDER = [k] ->
  detectFormat now RegExp_new content = Normal (Some (result_of now RegExp_new k)).
Proof.
  intro E.
  destruct (@detectFormat_best now RegExp_new content)
    as (before & k' & after & E' & Hr & _).
  { rewrite E. discriminate. }
  rewrite E in E'.
  destruct before as [|b before].
  - injection E' as -> _. assumption.
  - injection E' as _ E'. destruct before; discriminate.
Qed.

Lemma detectFormat_some_passes (content : jsstring) (r : DetectionResult) :
  detectFormat now RegExp_new content = Normal (Some r) ->
  exists k, r = result_of now RegExp_new k /\
            passes now RegExp_new (trim content) k = true.
Proof.
  intro H.
  destruct (filter (passes now RegExp_new (trim content)) DETECTION_ORDER)
    as [|k0 ks] eqn:E.
  - rewrite (@detectFormat_none now RegExp_new content E) in H. discriminate.
  - destruct (@detectFormat_best now RegExp_new content)
      as (before & k & after & E' & Hr & _).
    { rewrite E. discriminate. }
    rewrite Hr in H. injection H as <-.
    exists k. split; [reflexivity|].
    assert (Hin : In k (filter (passes now RegExp_new (trim content)) DETECTION_ORDER)).
    { rewrite E'. apply in_or_app. right. left. reflexivity. }
    apply filter_In in Hin as [_ Hin]. assumption.
Qed.

End DigitStrings.

(** C9. A string of eleven or twelve ASCII digits is classified as nothing:
    the timestamp pattern accepts it, the timestamp validator does not,
    and none of the patterns of jwt, json, regex and base64 accepts it. *)
Theorem detectFormat_digits_11_12
  (now : Z) (RegExp_new : jsstring -> jsstring -> completion unit)
  (s : jsstring) :
  all_digits s = true ->
  (length s = 11 \/ length s = 12)%nat ->
  detectFormat now RegExp_new s = Normal None /\
  test unixTimestamp_pattern s = true /\
  unixTimestamp_validate now s = Normal false /\
  test jwt_pattern s = false /\
  test json_pattern s = false /\
  test regex_pattern s = false /\
  test base64_pattern s = false.
Proof.
  intros Hd Hl.
  assert (Hne : s <> []) by (intros ->; simpl in Hl; lia).
  assert (Hv : unixTimestamp_validate now s = Normal false).
  { rewrite (@unixTimestamp_validate_digits now s Hd Hne).
    destruct Hl as [-> | ->]; reflexivity. }
  split; [|repeat split].
  - apply detectFormat_none. rewrite (@trim_digits s Hd).
    rewrite filter_passes_digits, Hv by (auto; lia). reflexivity.
  - apply unixTimestamp_pattern_spec. split; [assumption | lia].
  - assumption.
  - apply digits_fail_jwt, Hd.
  - apply digits_fail_json, Hd.
  - apply digits_fail_regex, Hd.
  - apply short_fails_base64. lia.
Qed.

Lemma detectFormat_digits_11_12_witness :
  all_digits (js "17000000001") = true /\
  (length (js "17000000001") = 11 \/ length (js "17000000001") = 12)%nat /\
  detectFormat 1700000000000 RegExp_new_plain (js "17000000001") = Normal None.
Proof.
  split; [reflexivity|]. split; [left; reflexivity|].
  apply (@detectFormat_digits_11_12 1700000000000 RegExp_new_plain (js "17000000001")).
  - reflexivity.
  - left; reflexivity.
Defined.

Lemma key_name_unixTimestamp (k : format_key) :
  key_name k = js "unixTimestamp" -> k = unixTimestamp.
Proof. destruct k; intro H; vm_compute in H; try discriminate H; reflexivity. Qed.

(** C6. [detectFormat] returns the format unixTimestamp exactly when the
    trimmed text is made of digits only and either has ten digits and a
    value [v] with [0 < v < now / 1000 + 1577836800] (seconds, fifty years
    ahead of the clock) or has thirteen digits and a value [v] with
    [0 < v < now + 1577836800000] (milliseconds); the result then has the
    tool timestamp and the confidence 0.85. *)
Theorem detectFormat_unixTimestamp
  (now : Z) (RegExp_new : jsstring -> jsstring -> completion unit)
  (s : jsstring) :
  ((exists r, detectFormat now RegExp_new s = Normal (Some r)
              /\ format r = js "unixTimestamp")
   <->
   (all_digits (trim s) = true /\
    ((length (trim s) = 10%nat /\
      (0 < digits_number (trim s))%Z /\
      (digits_number (trim s) * 1000 < now + 1577836800 * 1000)%Z)
     \/
     (length (trim s) = 13%nat /\
      (0 < digits_number (trim s))%Z /\
      (digits_number (trim s) < now + 1577836800000)%Z))))
  /\
  (forall r, detectFormat now RegExp_new s = Normal (Some r) ->
             format r = js "unixTimestamp" ->
             tool r = js "timestamp" /\ confidence r = 85 # 100).
Proof.
  split; [split|].
  - intros (r & Hr & Hf).
    apply detectFormat_some_passes in Hr as (k & -> & Hp).
    apply key_name_unixTimestamp in Hf. subst k.
    unfold passes in Hp. cbn [DETECTION_PATTERNS pattern validate] in Hp.
    apply andb_true_iff in Hp as [Hpat Hval].
    apply unixTimestamp_pattern_spec in Hpat as [Hd Hl].
    assert (Hne : trim s <> []) by (intro E; rewrite E in Hl; simpl in Hl; lia).
    rewrite (@unixTimestamp_validate_digits now (trim s) Hd Hne) in Hval.
    split; [assumption|].
    destruct (Nat.eqb (length (trim s)) 10) eqn:E10.
    + left. apply Nat.eqb_eq in E10.
      apply andb_true_iff in Hval as [H1 H2].
      apply Z.ltb_lt in H1, H2. auto.
    + destruct (Nat.eqb (length (trim s)) 13) eqn:E13; [|discriminate].
      right. apply Nat.eqb_eq in E13.
      apply andb_true_iff in Hval as [H1 H2].
      apply Z.ltb_lt in H1, H2. auto.
  - intros (Hd & Hcases).
    exists (result_of now RegExp_new unixTimestamp). split; [|reflexivity].
    apply detectFormat_single.
    assert (Hne : trim s <> []).
    { intro E. rewrite E in Hcases. simpl in Hcases.
      destruct Hcases as [[? _] | [? _]]; discriminate. }
    rewrite filter_passes_digits by (auto; destruct Hcases as [[-> _] | [-> _]]; lia).
    rewrite (@unixTimestamp_validate_digits now (trim s) Hd Hne).
    destruct Hcases as [(-> & H1 & H2) | (-> & H1 & H2)];
      apply Z.ltb_lt in H1, H2; cbn [Nat.eqb]; rewrite H1, H2; reflexivity.
  - intros r Hr Hf.
    apply detectFormat_some_passes in Hr as (k & -> & _).
    apply key_name_unixTimestamp in Hf. subst k. split; reflexivity.
Qed.

(** Scenario 3: ten digits, a number of seconds within fifty years of the
    clock reading 1700000000000. *)
Lemma detectFormat_unixTimestamp_witness :
  (all_digits (trim (js "1700000000")) = true /\
   ((length (trim (js "1700000000")) = 10%nat /\
     (0 < digits_number (trim (js "1700000000")))%Z /\
     (digits_number (trim (js "1700000000")) * 1000
      < 1700000000000 + 1577836800 * 1000)%Z)
    \/
    (length (trim (js "1700000000")) = 13%nat /\
     (0 < digits_number (trim (js "1700000000")))%Z /\
     (digits_number (trim (js "1700000000")) < 1700000000000 + 1577836800000)%Z)))
  /\
  exists r, detectFormat 1700000000000 RegExp_new_plain (js "1700000000")
            = Normal (Some r)
            /\ format r = js "unixTimestamp".
Proof.
  assert (H : all_digits (trim (js "1700000000")) = true /\
   ((length (trim (js "1700000000")) = 10%nat /\
     (0 < digits_number (trim (js "1700000000")))%Z /\
     (digits_number (trim (js "1700000000")) * 1000
      < 1700000000000 + 1577836800 * 1000)%Z)
    \/
    (length (trim (js "1700000000")) = 13%nat /\
     (0 < digits_number (trim (js "1700000000")))%Z /\
     (digits_number (trim (js "1700000000")) < 1700000000000 + 1577836800000)%Z))).
  { split; [reflexivity|]. left. vm_compute. repeat split. }
  split; [exact H|].
  exact (proj2 (proj1 (detectFormat_unixTimestamp 1700000000000 RegExp_new_plain
                         (js "1700000000"))) H).
Defined.

(** Scenario 3 of the specification, read with the clock at 1700000000000. *)
Example detectFormat_scenario_3 :
  detectFormat 1700000000000 RegExp_new_plain (js "1700000000")
  = Normal (Some {| format := js "unixTimestamp"; tool := js "timestamp";
                    confidence := 85 # 100 |}).
Proof. reflexivity. Qed.

(** ** The base64 descriptor *)

Lemma base64_fails_jwt (s : jsstring) :
  forallb is_base64_char s = true -> test jwt_pattern s = false.
Proof.
  intro Hb. destruct (test jwt_pattern s) eqn:E; [|reflexivity].
  apply jwt_pattern_has_dot in E.
  rewrite (@includes_false_forall (cu ".") is_base64_char s base64_char_not_dot Hb) in E.
  discriminate.
Qed.

Lemma base64_fails_json (s : jsstring) :
  forallb is_base64_char s = true -> test json_pattern s = false.
Proof.
  intro Hb. destruct (test json_pattern s) eqn:E; [|reflexivity].
  apply json_pattern_head in E as (c & rest & -> & Hc).
  cbn [forallb] in Hb. apply andb_true_iff in Hb as [Hb _].
  rewrite (@base64_char_not_space c Hb), (@base64_char_not_open_bracket c Hb) in Hc.
  destruct Hc; discriminate.
Qed.

Lemma long_fails_unixTimestamp (s : jsstring) :
  (13 < length s)%nat -> test unixTimestamp_pattern s = false.
Proof.
  intro Hl. destruct (test unixTimestamp_pattern s) eqn:E; [|reflexivity].
  apply unixTimestamp_pattern_spec in E. lia.
Qed.

Lemma ratio_exceeds_07_spec (printable total : nat) :
  ratio_exceeds_07 printable total = true <->
  (total <> 0 /\ 7 * total < 10 * printable)%nat.
Proof.
  unfold ratio_exceeds_07.
  rewrite andb_true_iff, negb_true_iff, Nat.eqb_neq, Nat.ltb_lt. reflexivity.
Qed.

(** C7, as the code has it.  The base64 descriptor passes both tests
    exactly when the trimmed text is made of at least 20 characters of
    [[A-Za-z0-9+/=_-]], holds no dot, decodes, and the decoded text is
    shorter than 50 or has more than 0.7 of its characters in the
    printable range from 32 to 126 inclusive.  A text on which it passes
    and the regex descriptor does not is classified base64, tool base64,
    confidence 0.7; so is the text of scenario 5.  A text on which both
    it and the regex descriptor pass is classified regex, tool regex,
    confidence 0.9. *)
Theorem base64_descriptor_passes (s : jsstring) :
  ((test base64_pattern (trim s) = true /\ base64_validate (trim s) = Normal true)
   <->
   (forallb is_base64_char (trim s) = true /\
    (20 <= length (trim s))%nat /\
    includes (cu ".") (trim s) = false /\
    exists decoded,
      atob (to_standard_base64 (trim s)) = Normal decoded /\
      (length decoded < 50 \/
       7 * length decoded < 10 * length (filter is_printable decoded))%nat))
  /\
  (forall now RegExp_new,
     test base64_pattern (trim s) = true ->
     base64_validate (trim s) = Normal true ->
     passes now RegExp_new (trim s) regex = false ->
     detectFormat now RegExp_new s
     = Normal (Some {| format := js "base64"; tool := js "base64";
                       confidence := 7 # 10 |}))
  /\
  (forall now RegExp_new,
     detectFormat now RegExp_new (js "SGVsbG8sIFdvcmxkIQ==")
     = Normal (Some {| format := js "base64"; tool := js "base64";
                       confidence := 7 # 10 |}))
  /\
  (forall now RegExp_new,
     test base64_pattern (trim s) = true ->
     base64_validate (trim s) = Normal true ->
     passes now RegExp_new (trim s) regex = true ->
     detectFormat now RegExp_new s
     = Normal (Some {| format := js "regex"; tool := js "regex";
                       confidence := 9 # 10 |})).
Proof.
  split; [|split; [|split]].
  - unfold base64_validate. rewrite trim_trim, base64_pattern_spec.
    split.
    + intros [[Hb Hl] Hv].
      assert (Hdot : includes (cu ".") (trim s) = false)
        by (apply (@includes_false_forall (cu ".") is_base64_char);
            [apply base64_char_not_dot | assumption]).
      rewrite Hdot in Hv.
      destruct (atob (to_standard_base64 (trim s))) as [decoded|e];
        cbn [bind try_catch] in Hv; [|discriminate].
      repeat split; try assumption.
      exists decoded. split; [reflexivity|].
      injection Hv as Hv. apply orb_true_iff in Hv as [Hv | Hv].
      * apply ratio_exceeds_07_spec in Hv. right. lia.
      * apply Nat.ltb_lt in Hv. left. assumption.
    + intros (Hb & Hl & Hdot & decoded & Ha & Hr).
      split; [auto|]. rewrite Hdot, Ha. cbn [bind try_catch]. f_equal.
      apply orb_true_iff.
      destruct (Nat.ltb (length decoded) 50) eqn:E; [right; reflexivity|].
      left. apply Nat.ltb_ge in E. apply ratio_exceeds_07_spec. lia.
  - intros now RegExp_new Hp Hv Hre.
    apply (@detectFormat_single now RegExp_new s base64).
    pose proof Hp as Hp'. apply base64_pattern_spec in Hp' as [Hb Hl].
    unfold DETECTION_ORDER. cbn [filter]. rewrite Hre.
    unfold passes. cbn [DETECTION_PATTERNS pattern validate].
    rewrite (@base64_fails_jwt (trim s) Hb), (@base64_fails_json (trim s) Hb),
      long_fails_unixTimestamp by lia.
    rewrite Hp, Hv. reflexivity.
  - intros now RegExp_new. vm_compute. reflexivity.
  - intros now RegExp_new Hp Hv Hre.
    pose proof Hp as Hp'. apply base64_pattern_spec in Hp' as [Hb Hl].
    assert (Hf : filter (passes now RegExp_new (trim s)) DETECTION_ORDER
                 = [regex; base64]).
    { unfold DETECTION_ORDER. cbn [filter]. rewrite Hre.
      unfold passes. cbn [DETECTION_PATTERNS pattern validate].
      rewrite (@base64_fails_jwt (trim s) Hb), (@base64_fails_json (trim s) Hb),
        long_fails_unixTimestamp by lia.
      rewrite Hp, Hv. reflexivity. }
    destruct (@detectFormat_best now RegExp_new s)
      as (before & k & after & E & Hr & Hlt & _).
    { rewrite Hf. discriminate. }
    rewrite Hf in E.
    destruct before as [|b1 [|b2 before]].
    + injection E as <- _. exact Hr.
    + injection E as <- <- _.
      specialize (Hlt regex (or_introl eq_refl)).
      cbn [DETECTION_PATTERNS d_confidence] in Hlt. lra.
    + injection E as _ _ E. destruct before; discriminate E.
Qed.

(** Scenario 5 passes the base64 descriptor and is no regex literal. *)
Lemma base64_descriptor_passes_witness :
  test base64_pattern (trim (js "SGVsbG8sIFdvcmxkIQ==")) = true /\
  base64_validate (trim (js "SGVsbG8sIFdvcmxkIQ==")) = Normal true /\
  passes 1700000000000 RegExp_new_plain (trim (js "SGVsbG8sIFdvcmxkIQ==")) regex = false /\
  detectFormat 1700000000000 RegExp_new_plain (js "SGVsbG8sIFdvcmxkIQ==")
  = Normal (Some {| format := js "base64"; tool := js "base64"; confidence := 7 # 10 |}).
Proof.
  split; [reflexivity|]. split; [reflexivity|]. split; [reflexivity|].
  apply (proj1 (proj2 (base64_descriptor_passes (js "SGVsbG8sIFdvcmxkIQ=="))));
    reflexivity.
Defined.

(** The claim with the range as the specification words it, [[32,126)],
    and with every accepted text classified base64, fails twice: 51 tildes
    (character 126) encoded in base64 pass the descriptor and not the
    condition of the specification, and a regular-expression literal of 24
    base64 characters passes the descriptor and is classified regex. *)
Lemma base64_claim_counterexample :
  (test base64_pattern
     (trim (js "fn5+fn5+fn5+fn5+fn5+fn5+fn5+fn5+fn5+fn5+fn5+fn5+fn5+fn5+fn5+fn5+fn5+")) = true
   /\ base64_validate
        (trim (js "fn5+fn5+fn5+fn5+fn5+fn5+fn5+fn5+fn5+fn5+fn5+fn5+fn5+fn5+fn5+fn5+fn5+"))
      = Normal true
   /\ base64_validates_as_specified
        (js "fn5+fn5+fn5+fn5+fn5+fn5+fn5+fn5+fn5+fn5+fn5+fn5+fn5+fn5+fn5+fn5+fn5+") = false)
  /\
  (test base64_pattern (trim (js "/abcdefghijklmnopqrstuv/")) = true
   /\ base64_validate (trim (js "/abcdefghijklmnopqrstuv/")) = Normal true
   /\ detectFormat 1700000000000 RegExp_new_plain (js "/abcdefghijklmnopqrstuv/")
      = Normal (Some {| format := js "regex"; tool := js "regex";
                        confidence := 9 # 10 |})).
Proof. vm_compute. repeat split. Qed.

(** ** The jwt descriptor *)

Lemma try_catch_false_true (body : completion bool) :
  try_catch body (fun _ => Normal false) = Normal true <-> body = Normal true.
Proof.
  destruct body as [b|e]; simpl; split; intro H;
    try assumption; discriminate H.
Qed.

(** A read throws on [null] and on nothing else. *)
Lemma js_get_cases (v : json_value) :
  (v = JNull /\ forall k, js_get v k = Throw TypeError)
  \/ (v <> JNull /\ forall k, exists x, js_get v k = Normal x).
Proof.
  destruct v; [left; split; reflexivity | right ..];
    (split; [discriminate | intro k; simpl; eauto]).
Qed.

Lemma typical_claims_spec (header payload : json_value) :
  typical_claims header payload = Normal true <->
  (header <> JNull /\
   (reads_string header (js "typ") (js "JWT")
    \/ reads_truthy header (js "alg")
    \/ reads_truthy payload (js "iat")
    \/ reads_truthy payload (js "exp")
    \/ reads_truthy payload (js "sub"))).
Proof.
  unfold typical_claims, reads_string, reads_truthy.
  destruct (js_get_cases header) as [[-> Hh] | [Hn Hh]].
  - rewrite !Hh. cbn [bind]. split; [discriminate | intros [H _]; contradiction].
  - destruct (Hh (js "typ")) as [t ->], (Hh (js "alg")) as [a ->]. cbn [bind].
    destruct (js_get_cases payload) as [[-> Hp] | [_ Hp]].
    + rewrite !Hp. cbn [bind].
      destruct (strict_eq_string t (js "JWT")), (truthy a);
        intuition (try discriminate; try congruence).
    + destruct (Hp (js "iat")) as [i ->], (Hp (js "exp")) as [x ->],
        (Hp (js "sub")) as [u ->]. cbn [bind].
      destruct (strict_eq_string t (js "JWT")), (truthy a), (truthy i),
        (truthy x), (truthy u);
        intuition (try discriminate; try congruence).
Qed.

Lemma jwt_validate_spec (s : jsstring) :
  jwt_validate s = Normal true <->
  exists part0 part1 part2 header payload,
    split (cu ".") (trim s) = [part0; part1; part2] /\
    decode_part part0 = Normal header /\
    decode_part part1 = Normal payload /\
    header <> JNull /\
    (reads_string header (js "typ") (js "JWT")
     \/ reads_truthy header (js "alg")
     \/ reads_truthy payload (js "iat")
     \/ reads_truthy payload (js "exp")
     \/ reads_truthy payload (js "sub")).
Proof.
  unfold jwt_validate.
  destruct (split (cu ".") (trim s)) as [|p0 [|p1 [|p2 [|p3 ps]]]];
    try (split; [discriminate | intros (? & ? & ? & ? & ? & E & _); discriminate E]).
  rewrite try_catch_false_true.
  destruct (decode_part p0) as [header|e0] eqn:E0; cbn [bind].
  - destruct (decode_part p1) as [payload|e1] eqn:E1; cbn [bind].
    + rewrite typical_claims_spec. split.
      * intros [Hn H]. exists p0, p1, p2, header, payload. auto 10.
      * intros (? & ? & ? & h & p & E & Eh & Ep & Hn & H).
        injection E as <- <- <-. rewrite E0 in Eh. rewrite E1 in Ep.
        injection Eh as <-. injection Ep as <-. auto.
    + split; [discriminate|].
      intros (? & ? & ? & h & p & E & Eh & Ep & _).
      injection E as <- <- <-. rewrite E1 in Ep. discriminate Ep.
  - split; [discriminate|].
    intros (? & ? & ? & h & p & E & Eh & _).
    injection E as <- <- <-. rewrite E0 in Eh. discriminate Eh.
Qed.

Lemma jwt_validate_trim (s : jsstring) : jwt_validate (trim s) = jwt_validate s.
Proof. unfold jwt_validate. rewrite trim_trim. reflexivity. Qed.

Lemma confidence_at_most_jwt (now : Z)
  (RegExp_new : jsstring -> jsstring -> completion unit) (k : format_key) :
  (d_confidence (DETECTION_PATTERNS now RegExp_new k)
   <= d_confidence (DETECTION_PATTERNS now RegExp_new jwt))%Q.
Proof. destruct k; cbn [DETECTION_PATTERNS d_confidence]; lra. Qed.

Lemma detectFormat_jwt (now : Z)
  (RegExp_new : jsstring -> jsstring -> completion unit) (s : jsstring) :
  test jwt_pattern (trim s) = true ->
  jwt_validate s = Normal true ->
  detectFormat now RegExp_new s
  = Normal (Some {| format := js "jwt"; tool := js "jwt"; confidence := 95 # 100 |}).
Proof.
  intros Hp Hv.
  assert (Hpass : passes now RegExp_new (trim s) jwt = true).
  { unfold passes. cbn [DETECTION_PATTERNS pattern validate].
    rewrite Hp, jwt_validate_trim, Hv. reflexivity. }
  destruct (@detectFormat_best now RegExp_new s)
    as (before & k & after & E & Hr & Hb & _).
  { unfold DETECTION_ORDER. cbn [filter]. rewrite Hpass. discriminate. }
  unfold DETECTION_ORDER in E. cbn [filter] in E. rewrite Hpass in E.
  destruct before as [|b before].
  - injection E as <- _. exact Hr.
  - injection E as <- _.
    specialize (Hb jwt (or_introl eq_refl)).
    pose proof (confidence_at_most_jwt now RegExp_new k). lra.
Qed.

(** C2, as the code has it.  The jwt validator accepts exactly when the
    trimmed text splits on the dot into three parts, parts 0 and 1 decode
    from base64url and parse as JSON values of any kind, the header is not
    [null], and the header's [typ] is the string JWT, or the header's
    [alg] is truthy, or the payload's [iat], [exp] or [sub] is truthy.
    The payload is read only when the header does not decide: a [null]
    payload is accepted when [typ] is JWT or [alg] is truthy, and
    rejects otherwise, the read on it throwing.  A text that
    passes the jwt pattern and the validator is classified jwt, tool jwt,
    confidence 0.95; so is the token of scenario 2. *)
Theorem jwt_descriptor_accepts (s : jsstring) :
  (jwt_validate s = Normal true <->
   exists part0 part1 part2 header payload,
     split (cu ".") (trim s) = [part0; part1; part2] /\
     decode_part part0 = Normal header /\
     decode_part part1 = Normal payload /\
     header <> JNull /\
     (reads_string header (js "typ") (js "JWT")
      \/ reads_truthy header (js "alg")
      \/ reads_truthy payload (js "iat")
      \/ reads_truthy payload (js "exp")
      \/ reads_truthy payload (js "sub")))
  /\
  (forall now RegExp_new,
     test jwt_pattern (trim s) = true ->
     jwt_validate s = Normal true ->
     detectFormat now RegExp_new s
     = Normal (Some {| format := js "jwt"; tool := js "jwt";
                       confidence := 95 # 100 |}))
  /\
  (forall now RegExp_new,
     detectFormat now RegExp_new
       (js "eyJhbGciOiJIUzI1NiIsInR5cCI6IkpXVCJ9.eyJzdWIiOiIxMjM0NTY3ODkwIn0.signature")
     = Normal (Some {| format := js "jwt"; tool := js "jwt";
                       confidence := 95 # 100 |})).
Proof.
  split; [apply jwt_validate_spec | split].
  - intros now RegExp_new. apply detectFormat_jwt.
  - intros now RegExp_new. apply detectFormat_jwt; vm_compute; reflexivity.
Qed.

(** The token of scenario 2 passes the pattern and the validator. *)
Lemma jwt_descriptor_accepts_witness :
  test jwt_pattern
    (trim (js "eyJhbGciOiJIUzI1NiIsInR5cCI6IkpXVCJ9.eyJzdWIiOiIxMjM0NTY3ODkwIn0.signature"))
  = true /\
  jwt_validate
    (js "eyJhbGciOiJIUzI1NiIsInR5cCI6IkpXVCJ9.eyJzdWIiOiIxMjM0NTY3ODkwIn0.signature")
  = Normal true /\
  detectFormat 1700000000000 RegExp_new_plain
    (js "eyJhbGciOiJIUzI1NiIsInR5cCI6IkpXVCJ9.eyJzdWIiOiIxMjM0NTY3ODkwIn0.signature")
  = Normal (Some {| format := js "jwt"; tool := js "jwt"; confidence := 95 # 100 |}).
Proof.
  split; [vm_compute; reflexivity|]. split; [vm_compute; reflexivity|].
  apply (proj1 (proj2 (jwt_descriptor_accepts
    (js "eyJhbGciOiJIUzI1NiIsInR5cCI6IkpXVCJ9.eyJzdWIiOiIxMjM0NTY3ODkwIn0.signature"))));
    vm_compute; reflexivity.
Defined.

(** The claim as the specification words it fails three times.  The
    header [MQ] decodes to the number 1, which is no object, and the text
    is accepted and classified jwt.  The header of the second text is an
    object with an [alg] field that holds the empty string, and the text
    is rejected.  The third text is accepted by the validator but not by
    the pattern, and is classified as nothing. *)
Lemma jwt_claim_counterexample :
  (jwt_validate (js "MQ.eyJzdWIiOiJ4In0.") = Normal true
   /\ jwt_accepts_as_specified (js "MQ.eyJzdWIiOiJ4In0.") = false
   /\ detectFormat 1700000000000 RegExp_new_plain (js "MQ.eyJzdWIiOiJ4In0.")
      = Normal (Some {| format := js "jwt"; tool := js "jwt";
                        confidence := 95 # 100 |}))
  /\
  (jwt_validate (js "eyJhbGciOiIifQ.e30.") = Normal false
   /\ jwt_accepts_as_specified (js "eyJhbGciOiIifQ.e30.") = true)
  /\
  (jwt_validate (js "MQ.eyJzdWIiOiJ4In0.!") = Normal true
   /\ detectFormat 1700000000000 RegExp_new_plain (js "MQ.eyJzdWIiOiJ4In0.!")
      = Normal None).
Proof. vm_compute. repeat split. Qed.

(** The header [{"typ":"JWT"}] decides before the payload is read: the
    payload [null] is accepted and the text is classified jwt.  With the
    header [{}] the same payload is read, the read throws and the text is
    rejected. *)
Example jwt_validate_null_payload :
  decode_part (js "bnVsbA") = Normal JNull /\
  jwt_validate (js "eyJ0eXAiOiJKV1QifQ.bnVsbA.") = Normal true /\
  detectFormat 1700000000000 RegExp_new_plain (js "eyJ0eXAiOiJKV1QifQ.bnVsbA.")
  = Normal (Some {| format := js "jwt"; tool := js "jwt"; confidence := 95 # 100 |}) /\
  jwt_validate (js "e30.bnVsbA.") = Normal false.
Proof. vm_compute. repeat split. Qed.

(** ** The clock *)

Lemma result_of_clock (now1 now2 : Z)
  (RegExp_new : jsstring -> jsstring -> completion unit) (k : format_key) :
  result_of now1 RegExp_new k = result_of now2 RegExp_new k.
Proof. destruct k; reflexivity. Qed.

Lemma unixTimestamp_validate_other_length (now : Z) (s : jsstring) :
  length s <> 10%nat -> length s <> 13%nat ->
  unixTimestamp_validate now s = Normal false.
Proof.
  intros H10 H13. unfold unixTimestamp_validate.
  apply Nat.eqb_neq in H10, H13. rewrite H10, H13.
  destruct (parseInt10 (trim s)); reflexivity.
Qed.

Lemma passes_clock (now1 now2 : Z)
  (RegExp_new : jsstring -> jsstring -> completion unit)
  (t : jsstring) (k : format_key) :
  ~ (all_digits t = true /\ (length t = 10 \/ length t = 13)%nat) ->
  passes now1 RegExp_new t k = passes now2 RegExp_new t k.
Proof.
  intro H. destruct k; try reflexivity.
  unfold passes. cbn [DETECTION_PATTERNS pattern validate].
  destruct (test unixTimestamp_pattern t) eqn:E; [|reflexivity].
  apply unixTimestamp_pattern_spec in E as [Hd Hl].
  rewrite !unixTimestamp_validate_other_length; tauto.
Qed.

(** C3, as the code has it.  [detectFormat] is a function of the text and
    of the clock reading [Date.now()] that its timestamp validator takes.
    Two calls on the same text return the same result, whatever the two
    clock readings, unless the trimmed text is a string of exactly ten or
    exactly thirteen digits.  The rule set is a constant table: no call
    writes it. *)
Theorem detectFormat_clock (now1 now2 : Z)
  (RegExp_new : jsstring -> jsstring -> completion unit) (s : jsstring) :
  ~ (all_digits (trim s) = true
     /\ (length (trim s) = 10 \/ length (trim s) = 13)%nat) ->
  detectFormat now1 RegExp_new s = detectFormat now2 RegExp_new s.
Proof.
  intro H. unfold detectFormat. destruct s as [|c s]; [reflexivity|].
  destruct (Nat.eqb (length (trim (c :: s))) 0); [reflexivity|].
  rewrite !detect_loop_spec. cbn [app].
  rewrite (filter_ext _ _ (fun k => @passes_clock now1 now2 RegExp_new _ k H)).
  rewrite (map_ext _ _ (result_of_clock now1 now2 RegExp_new)).
  reflexivity.
Qed.

(** Eleven digits are no timestamp today and none in the year 2100. *)
Lemma detectFormat_clock_witness :
  ~ (all_digits (trim (js "17000000001")) = true
     /\ (length (trim (js "17000000001")) = 10
         \/ length (trim (js "17000000001")) = 13)%nat) /\
  detectFormat 1700000000000 RegExp_new_plain (js "17000000001")
  = detectFormat 4102444800000 RegExp_new_plain (js "17000000001").
Proof.
  split.
  - vm_compute. intros [_ [H | H]]; discriminate H.
  - apply detectFormat_clock.
    vm_compute. intros [_ [H | H]]; discriminate H.
Defined.

(** Two calls on the same ten digits, 200 seconds apart, disagree: the
    number 3277836900 lies beyond fifty years from the first clock reading
    and within fifty years from the second. *)
Lemma detectFormat_clock_counterexample :
  detectFormat 1700000000000 RegExp_new_plain (js "3277836900") = Normal None
  /\ detectFormat 1700000200000 RegExp_new_plain (js "3277836900")
     = Normal (Some {| format := js "unixTimestamp"; tool := js "timestamp";
                       confidence := 85 # 100 |}).
Proof. vm_compute. split; reflexivity. Qed.

(** ** The router *)

Lemma detectFormat_normal (now : Z)
  (RegExp_new : jsstring -> jsstring -> completion unit) (content : jsstring) :
  exists r, detectFormat now RegExp_new content = Normal r.
Proof.
  unfold detectFormat. destruct content as [|c s]; [eauto|].
  destruct (Nat.eqb (length (trim (c :: s))) 0); [eauto|].
  rewrite detect_loop_spec. cbn [bind].
  destruct (Array_sort _ _); eauto.
Qed.

Section RouterFacts.

Variable World : Type.
Variable now : Z.
Variable RegExp_new : jsstring -> jsstring -> completion unit.

(** [processContent] calls [onDetect] once, on the event made from the
    detection, and calls [onError] when and only when that call throws. *)
Lemma processContent_outcome (self : SmartPaste World) (content : jsstring) (w : World) :
  processContent now RegExp_new self content w =
  let ev := delivered_event now RegExp_new content in
  match onDetect self ev w with
  | (w1, Normal _) =>
      {| calls := [CallDetect ev]; world_after := w1; self_after := self;
         completion_of := Normal tt |}
  | (w1, Throw e) =>
      {| calls := [CallDetect ev; CallError e];
         world_after := fst (onError self e w1); self_after := self;
         completion_of := snd (onError self e w1) |}
  end.
Proof.
  unfold processContent, delivered_event.
  destruct (detectFormat_normal now RegExp_new content) as [r ->].
  cbn zeta.
  destruct (onDetect self _ w) as [w1 [u|e]]; [reflexivity|].
  unfold on_caught. destruct (onError self e w1); reflexivity.
Qed.

End RouterFacts.

Section RouterClaims.

Variable World : Type.
Variable now : Z.
Variable RegExp_new : jsstring -> jsstring -> completion unit.

(** C4, as the code has it.  On a text for which [detectFormat] returns
    [null], as it does on the empty text and on three blanks,
    [processContent] calls [onDetect]
    first and once, with the record of the unknown format routed to the
    JSON tool at confidence 0; when that call returns, [processContent]
    returns and has called nothing else; and [processContent] throws
    nothing of its own: an exception leaves it only when [onDetect] threw
    and [onError], called on that exception, threw in turn. *)
Theorem processContent_fallback
  (self : SmartPaste World) (content : jsstring) (w : World) :
  content = js "" \/ content = js "   "
  \/ detectFormat now RegExp_new content = Normal None ->
  let unknown :=
    {| p_content := content; p_format := js "unknown"; p_tool := js "json";
       p_confidence := 0; p_displayName := js "Unknown Format";
       p_toolName := js "JSON Formatter" |} in
  let o := processContent now RegExp_new self content w in
  detectFormat now RegExp_new content = Normal None /\
  (exists rest, calls o = CallDetect unknown :: rest
                /\ forall ev, ~ In (CallDetect ev) rest) /\
  (snd (onDetect self unknown w) = Normal tt ->
   calls o = [CallDetect unknown] /\ completion_of o = Normal tt) /\
  (forall e, completion_of o = Throw e ->
             exists e0, snd (onDetect self unknown w) = Throw e0
                        /\ snd (onError self e0 (fst (onDetect self unknown w)))
                           = Throw e).
Proof.
  intros H unknown o.
  assert (Hnull : detectFormat now RegExp_new content = Normal None).
  { destruct H as [-> | [-> | H]]; [reflexivity | reflexivity | exact H]. }
  split; [exact Hnull|].
  subst o. rewrite processContent_outcome.
  unfold delivered_event. rewrite Hnull. fold unknown. cbn zeta.
  change (fallback content) with unknown.
  destruct (onDetect self unknown w) as [w1 [[]|e0]]; cbn [calls completion_of fst snd].
  - split; [|split].
    + exists []. split; [reflexivity | intros ev []].
    + auto.
    + intros e He. discriminate He.
  - split; [|split].
    + exists [CallError e0]. split; [reflexivity|].
      intros ev [Hc | []]. discriminate Hc.
    + intro Hc. discriminate Hc.
    + intros e He. exists e0. auto.
Qed.

(** C5, as the code has it.  On every text, whatever its code units,
    [detectFormat] returns: each validator returns a truth value, and a throw of the base64
    decoder, of the JSON parser, of the regular-expression constructor or
    of a property read on [null] inside a validator is caught there and
    makes the validator answer false.  [processContent] then calls
    [onDetect] first and once, returns when that call returns, and throws
    nothing of its own: an exception leaves it only when [onDetect] threw
    and [onError], called on that exception, threw in turn. *)
Theorem no_exception_escapes
  (self : SmartPaste World) (content : jsstring) (w : World) :
  (exists r, detectFormat now RegExp_new content = Normal r) /\
  (forall k text,
     exists b, validate (DETECTION_PATTERNS now RegExp_new k) text = Normal b) /\
  (forall text part0 part1 part2 e,
     split (cu ".") (trim text) = [part0; part1; part2] ->
     (header <- decode_part part0 ;;
      payload <- decode_part part1 ;;
      typical_claims header payload)%completion = Throw e ->
     jwt_validate text = Normal false) /\
  (forall text e,
     JSON.parse (trim text) = Throw e -> json_validate text = Normal false) /\
  (forall text e,
     atob (to_standard_base64 (trim text)) = Throw e ->
     base64_validate text = Normal false) /\
  (forall text source flags e,
     regex_literal_match (trim text) = Some (source, flags) ->
     RegExp_new source flags = Throw e ->
     regex_validate RegExp_new text = Normal false) /\
  (let ev := delivered_event now RegExp_new content in
   let o := processContent now RegExp_new self content w in
   (exists rest, calls o = CallDetect ev :: rest
                 /\ forall ev', ~ In (CallDetect ev') rest) /\
   (snd (onDetect self ev w) = Normal tt -> completion_of o = Normal tt) /\
   (forall e, completion_of o = Throw e ->
              exists e0, snd (onDetect self ev w) = Throw e0
                         /\ snd (onError self e0 (fst (onDetect self ev w)))
                            = Throw e)).
Proof.
  split; [apply detectFormat_normal|].
  split; [intros k text; apply validate_normal|].
  split; [|split; [|split; [|split]]].
  - intros text p0 p1 p2 e Hs Hb. unfold jwt_validate. rewrite Hs, Hb. reflexivity.
  - intros text e He. unfold json_validate. rewrite He. reflexivity.
  - intros text e He. unfold base64_validate. rewrite He.
    destruct (includes (cu ".") (trim text)); reflexivity.
  - intros text source flags e Hm He. unfold regex_validate.
    rewrite Hm, He. reflexivity.
  - intros ev o. subst o. rewrite processContent_outcome. fold ev. cbn zeta.
    destruct (onDetect self ev w) as [w1 [[]|e0]]; cbn [calls completion_of fst snd].
    + split; [|split].
      * exists []. split; [reflexivity | intros ev' []].
      * reflexivity.
      * intros e He. discriminate He.
    + split; [|split].
      * exists [CallError e0]. split; [reflexivity|].
        intros ev' [Hc | []]. discriminate Hc.
      * intro Hc. discriminate Hc.
      * intros e He. exists e0. auto.
Qed.

(** C8.  [analyze] returns what [detectFormat] returns on the same text,
    calls no callback, and leaves the world and the instance as they
    were: the [enabled] flag, the registration and both callbacks. *)
Theorem analyze_is_detectFormat
  (self : SmartPaste World) (content : jsstring) (w : World) :
  let o := analyze now RegExp_new self content w in
  completion_of o = detectFormat now RegExp_new content /\
  calls o = [] /\
  world_after o = w /\
  self_after o = self /\
  enabled (self_after o) = enabled self /\
  listening (self_after o) = listening self /\
  onDetect (self_after o) = onDetect self /\
  onError (self_after o) = onError self.
Proof. cbn. repeat split. Qed.

(** C10, as the code has it.  When the [onDetect] of a router built by the
    constructor throws [e] on the event of a text, [processContent] has
    called [onDetect] and then [onError] on [e], and completes as that
    call of [onError] completes: it returns when [onError] returns, which
    the default no-op always does, and it throws what [onError] throws. *)
Theorem processContent_onDetect_throws
  (options : Options World) (content : jsstring) (w w1 : World) (e : exn) :
  let self := new_SmartPaste options in
  let ev := delivered_event now RegExp_new content in
  onDetect self ev w = (w1, Throw e) ->
  let o := processContent now RegExp_new self content w in
  calls o = [CallDetect ev; CallError e] /\
  world_after o = fst (onError self e w1) /\
  completion_of o = snd (onError self e w1) /\
  (opt_onError options = None ->
   world_after o = w1 /\ completion_of o = Normal tt).
Proof.
  intros self ev H o. subst o. rewrite processContent_outcome. fold ev. cbn zeta.
  rewrite H. cbn [calls world_after completion_of].
  split; [reflexivity|]. split; [reflexivity|]. split; [reflexivity|].
  intro Hdefault. unfold self, new_SmartPaste. cbn [onError].
  rewrite Hdefault. split; reflexivity.
Qed.

End RouterClaims.

(** Three blanks, with an [onDetect] that counts its calls. *)
Lemma processContent_fallback_witness :
  let unknown :=
    {| p_content := js "   "; p_format := js "unknown"; p_tool := js "json";
       p_confidence := 0; p_displayName := js "Unknown Format";
       p_toolName := js "JSON Formatter" |} in
  let o := processContent 1700000000000 RegExp_new_plain
             (new_SmartPaste {| opt_onDetect := Some counting_callback;
                                opt_onError := None |})
             (js "   ") 0%nat in
  (js "   " = js "" \/ js "   " = js "   "
   \/ detectFormat 1700000000000 RegExp_new_plain (js "   ") = Normal None) /\
  calls o = [CallDetect unknown] /\ completion_of o = Normal tt /\ world_after o = 1%nat.
Proof.
  intros unknown o.
  split; [right; left; reflexivity|].
  destruct (@processContent_fallback nat 1700000000000 RegExp_new_plain
              (new_SmartPaste {| opt_onDetect := Some counting_callback;
                                 opt_onError := None |})
              (js "   ") 0%nat (or_intror (or_introl eq_refl)))
    as (_ & _ & H & _).
  destruct (H eq_refl) as [Hc Hn].
  split; [exact Hc|]. split; [exact Hn | reflexivity].
Defined.

(** A throwing [onDetect] and the default [onError]. *)
Lemma processContent_onDetect_throws_witness :
  let self := new_SmartPaste {| opt_onDetect := Some throwing_onDetect;
                                opt_onError := None |} in
  let ev := delivered_event 1700000000000 RegExp_new_plain (js "1700000000") in
  onDetect self ev 0%nat = (1%nat, Throw TypeError) /\
  completion_of (processContent 1700000000000 RegExp_new_plain self
                   (js "1700000000") 0%nat) = Normal tt.
Proof.
  intros self ev. split; [reflexivity|].
  destruct (@processContent_onDetect_throws nat 1700000000000 RegExp_new_plain
              {| opt_onDetect := Some throwing_onDetect; opt_onError := None |}
              (js "1700000000") 0%nat 1%nat TypeError eq_refl)
    as (_ & _ & _ & H).
  exact (proj2 (H eq_refl)).
Defined.

(** A throwing [onDetect] and an [onError] that throws what it is given:
    [processContent] does not return normally. *)
Lemma processContent_onError_throws :
  completion_of
    (processContent 1700000000000 RegExp_new_plain
       (new_SmartPaste {| opt_onDetect := Some throwing_onDetect;
                          opt_onError := Some rethrowing_onError |})
       (js "1700000000") 0%nat)
  = Throw TypeError.
Proof. reflexivity. Qed.

(** On the empty text and on three blanks, which [detectFormat] classifies
    as nothing, [processContent] with an [onDetect] that throws and an
    [onError] that throws what it is given does throw: the fallback record
    is delivered, and the exception of [onError] leaves the method. *)
Lemma processContent_fallback_throws :
  completion_of
    (processContent 1700000000000 RegExp_new_plain
       (new_SmartPaste {| opt_onDetect := Some throwing_onDetect;
                          opt_onError := Some rethrowing_onError |})
       (js "") 0%nat)
  = Throw TypeError
  /\
  completion_of
    (processContent 1700000000000 RegExp_new_plain
       (new_SmartPaste {| opt_onDetect := Some throwing_onDetect;
                          opt_onError := Some rethrowing_onError |})
       (js "   ") 0%nat)
  = Throw TypeError
  /\
  calls
    (processContent 1700000000000 RegExp_new_plain
       (new_SmartPaste {| opt_onDetect := Some throwing_onDetect;
                          opt_onError := Some rethrowing_onError |})
       (js "   ") 0%nat)
  = [CallDetect (fallback (js "   ")); CallError TypeError].
Proof. repeat split. Qed.

(** On a text that is malformed base64 with a null character and an
    unpaired surrogate, [detectFormat] returns, and nothing is detected;
    yet [processContent] with an [onDetect] that throws and an [onError]
    that throws what it is given does throw. *)
Lemma processContent_malformed_throws :
  detectFormat 1700000000000 RegExp_new_plain
    (js "SGVsbG8sIFdvcmxkIQ=" ++ [0; 55296]) = Normal None
  /\
  completion_of
    (processContent 1700000000000 RegExp_new_plain
       (new_SmartPaste {| opt_onDetect := Some throwing_onDetect;
                          opt_onError := Some rethrowing_onError |})
       (js "SGVsbG8sIFdvcmxkIQ=" ++ [0; 55296]) 0%nat)
  = Throw TypeError.
Proof. vm_compute. split; reflexivity. Qed.

(** * Further properties of the detector, the router and the application *)

From Stdlib Require Import Permutation Sorted.

(** ** The classifier as a function of the trimmed text *)

Lemma key_name_injective (k1 k2 : format_key) :
  key_name k1 = key_name k2 -> k1 = k2.
Proof.
  destruct k1, k2; intro H; vm_compute in H; try discriminate H; reflexivity.
Qed.

Lemma trimStart_app_spaces (pad s : jsstring) :
  forallb is_space pad = true -> trimStart (pad ++ s) = trimStart s.
Proof.
  induction pad as [|c pad IH]; cbn [forallb app trimStart]; intro H.
  - reflexivity.
  - apply andb_true_iff in H as [Hc Hp]. rewrite Hc. auto.
Qed.

Lemma trimStart_spaces (s : jsstring) :
  trimStart s = [] <-> forallb is_space s = true.
Proof.
  induction s as [|c s IH]; cbn [forallb trimStart].
  - tauto.
  - destruct (is_space c); cbn [andb].
    + exact IH.
    + split; intro H; discriminate H.
Qed.

Lemma trimStart_app_nonempty (s t : jsstring) :
  trimStart s <> [] -> trimStart (s ++ t) = trimStart s ++ t.
Proof.
  induction s as [|c s IH]; cbn [app trimStart]; intro H.
  - contradiction.
  - destruct (is_space c); [auto | reflexivity].
Qed.

Lemma trimEnd_app_spaces (s pad : jsstring) :
  forallb is_space pad = true -> trimEnd (s ++ pad) = trimEnd s.
Proof.
  intro H. unfold trimEnd. rewrite rev_app_distr, trimStart_app_spaces.
  - reflexivity.
  - rewrite forallb_rev. assumption.
Qed.

Lemma trim_padding (pad1 s pad2 : jsstring) :
  forallb is_space pad1 = true -> forallb is_space pad2 = true ->
  trim (pad1 ++ s ++ pad2) = trim s.
Proof.
  intros H1 H2. unfold trim. rewrite (@trimStart_app_spaces pad1 (s ++ pad2) H1).
  destruct (trimStart s) as [|c r] eqn:E.
  - assert (Hs : trimStart (s ++ pad2) = []).
    { apply trimStart_spaces. rewrite forallb_app, H2.
      apply trimStart_spaces in E. rewrite E. reflexivity. }
    rewrite Hs. reflexivity.
  - rewrite trimStart_app_nonempty by (rewrite E; discriminate).
    rewrite E. apply trimEnd_app_spaces, H2.
Qed.

Lemma trim_spaces (s : jsstring) :
  trim s = [] <-> forallb is_space s = true.
Proof.
  unfold trim. split.
  - intro H. destruct (trimStart s) as [|c r] eqn:E.
    + apply trimStart_spaces, E.
    + exfalso. unfold trimEnd in H.
      assert (Hr : trimStart (rev (c :: r)) = []).
      { destruct (trimStart (rev (c :: r))); [reflexivity|].
        apply (f_equal (@length code_unit)) in H.
        rewrite length_rev in H. discriminate H. }
      apply trimStart_spaces in Hr. rewrite forallb_rev in Hr.
      cbn [forallb] in Hr. apply andb_true_iff in Hr as [Hc _].
      assert (Hn : is_space c = false).
      { apply (@trimStart_head s c). rewrite E. reflexivity. }
      congruence.
  - intro H. apply trimStart_spaces in H. rewrite H. reflexivity.
Qed.

Section ClassifierFacts.

Variable now : Z.
Variable RegExp_new : jsstring -> jsstring -> completion unit.

(** [detectFormat] is the head of the sorted results of the descriptors
    that pass on the trimmed text. *)
Lemma detectFormat_spec (content : jsstring) :
  detectFormat now RegExp_new content =
  Normal (hd_error
            (Array_sort by_confidence
               (map (result_of now RegExp_new)
                  (filter (passes now RegExp_new (trim content)) DETECTION_ORDER)))).
Proof.
  destruct (trim content) as [|t ts] eqn:E.
  - rewrite <- E.
    rewrite (@detectFormat_none now RegExp_new content)
      by (apply filter_passes_nil; assumption).
    rewrite (@filter_passes_nil now RegExp_new content E). reflexivity.
  - unfold detectFormat. destruct content as [|c content]; [discriminate E|].
    rewrite E. cbn [length Nat.eqb]. rewrite detect_loop_spec. cbn [app bind].
    destruct (Array_sort _ _); reflexivity.
Qed.

Lemma detectFormat_same_trim (c1 c2 : jsstring) :
  trim c1 = trim c2 ->
  detectFormat now RegExp_new c1 = detectFormat now RegExp_new c2.
Proof. intro H. rewrite !detectFormat_spec, H. reflexivity. Qed.

End ClassifierFacts.

(** X1.  White space around a text does not change its classification:
    [detectFormat] gives the same result on a text and on the text with
    any characters that [trim] strips put before and after it. *)
Theorem detectFormat_ignores_padding
  (now : Z) (RegExp_new : jsstring -> jsstring -> completion unit)
  (pad1 s pad2 : jsstring) :
  forallb is_space pad1 = true ->
  forallb is_space pad2 = true ->
  detectFormat now RegExp_new (pad1 ++ s ++ pad2) = detectFormat now RegExp_new s.
Proof.
  intros H1 H2. apply detectFormat_same_trim, trim_padding; assumption.
Qed.

(** A timestamp between a tab and a line feed with a no-break space. *)
Lemma detectFormat_ignores_padding_witness :
  forallb is_space [9; 32] = true /\
  forallb is_space [160; 10] = true /\
  detectFormat 1700000000000 RegExp_new_plain ([9; 32] ++ js "1700000000" ++ [160; 10])
  = detectFormat 1700000000000 RegExp_new_plain (js "1700000000").
Proof.
  split; [reflexivity|]. split; [reflexivity|].
  apply detectFormat_ignores_padding; reflexivity.
Defined.


(** ** Which descriptors can pass together *)

Lemma base64url_char_is_base64_char (c : code_unit) :
  is_base64url_char c = true -> is_base64_char c = true.
Proof. intro H. class_arith. Qed.

Lemma open_bracket_not_base64url_char (c : code_unit) :
  is_open_bracket c = true -> is_base64url_char c = false.
Proof. intro H. class_arith. Qed.

Lemma space_not_base64url_char (c : code_unit) :
  is_space c = true -> is_base64url_char c = false.
Proof. intro H. class_arith. Qed.

Lemma jwt_fails_json (t : jsstring) :
  test jwt_pattern t = true -> test json_pattern t = false.
Proof.
  intro H. destruct (test json_pattern t) eqn:E; [|reflexivity].
  apply jwt_pattern_head in H as (c & rest & -> & Hc).
  apply json_pattern_head in E as (c' & rest' & E & Hc').
  injection E as <- <-.
  destruct Hc' as [Hs | Hb].
  - apply space_not_base64url_char in Hs. congruence.
  - apply open_bracket_not_base64url_char in Hb. congruence.
Qed.

Lemma jwt_fails_regex (t : jsstring) :
  test jwt_pattern t = true -> test regex_pattern t = false.
Proof.
  intro H. destruct (test regex_pattern t) eqn:E; [|reflexivity].
  apply jwt_pattern_head in H as (c & rest & -> & Hc).
  apply regex_pattern_head in E as (rest' & E). injection E as -> _.
  apply base64url_char_not_slash in Hc. rewrite N.eqb_refl in Hc. discriminate Hc.
Qed.

Lemma jwt_fails_unixTimestamp (t : jsstring) :
  test jwt_pattern t = true -> test unixTimestamp_pattern t = false.
Proof.
  intro H. destruct (test unixTimestamp_pattern t) eqn:E; [|reflexivity].
  apply unixTimestamp_pattern_spec in E as [Hd _].
  rewrite (@digits_fail_jwt t Hd) in H. discriminate H.
Qed.

Lemma jwt_fails_base64 (t : jsstring) :
  test jwt_pattern t = true -> test base64_pattern t = false.
Proof.
  intro H. destruct (test base64_pattern t) eqn:E; [|reflexivity].
  apply base64_pattern_spec in E as [Hb _].
  rewrite (@base64_fails_jwt t Hb) in H. discriminate H.
Qed.

Lemma json_fails_unixTimestamp (t : jsstring) :
  test json_pattern t = true -> test unixTimestamp_pattern t = false.
Proof.
  intro H. destruct (test unixTimestamp_pattern t) eqn:E; [|reflexivity].
  apply unixTimestamp_pattern_spec in E as [Hd _].
  rewrite (@digits_fail_json t Hd) in H. discriminate H.
Qed.

Lemma json_fails_regex (t : jsstring) :
  test json_pattern t = true -> test regex_pattern t = false.
Proof.
  intro H. destruct (test regex_pattern t) eqn:E; [|reflexivity].
  apply json_pattern_head in H as (c & rest & -> & Hc).
  apply regex_pattern_head in E as (rest' & E). injection E as -> _.
  destruct Hc as [Hs | Hb].
  - apply space_not_slash in Hs. rewrite N.eqb_refl in Hs. discriminate Hs.
  - apply open_bracket_not_slash in Hb. rewrite N.eqb_refl in Hb. discriminate Hb.
Qed.

Lemma json_fails_base64 (t : jsstring) :
  test json_pattern t = true -> test base64_pattern t = false.
Proof.
  intro H. destruct (test base64_pattern t) eqn:E; [|reflexivity].
  apply base64_pattern_spec in E as [Hb _].
  rewrite (@base64_fails_json t Hb) in H. discriminate H.
Qed.

Lemma unixTimestamp_fails_regex (t : jsstring) :
  test unixTimestamp_pattern t = true -> test regex_pattern t = false.
Proof.
  intro H. apply unixTimestamp_pattern_spec in H as [Hd _].
  apply digits_fail_regex, Hd.
Qed.

Lemma unixTimestamp_fails_base64 (t : jsstring) :
  test unixTimestamp_pattern t = true -> test base64_pattern t = false.
Proof.
  intro H. apply unixTimestamp_pattern_spec in H as [_ Hl].
  apply short_fails_base64. lia.
Qed.

Ltac clash H1 H2 lemma :=
  exfalso; apply lemma in H1; rewrite H1 in H2; discriminate H2.

(** X2.  Two different descriptors accept the same text with their
    structural patterns only when they are regex and base64: every other
    pair of patterns excludes each other, so a text has at most two
    candidates and jwt, json and unixTimestamp are never in competition. *)
Theorem patterns_overlap_only_regex_base64
  (now : Z) (RegExp_new : jsstring -> jsstring -> completion unit)
  (t : jsstring) (k1 k2 : format_key) :
  test (pattern (DETECTION_PATTERNS now RegExp_new k1)) t = true ->
  test (pattern (DETECTION_PATTERNS now RegExp_new k2)) t = true ->
  k1 = k2 \/ (k1 = regex /\ k2 = base64) \/ (k1 = base64 /\ k2 = regex).
Proof.
  intros H1 H2.
  destruct k1, k2; cbn [DETECTION_PATTERNS pattern] in H1, H2; auto.
  - clash H1 H2 jwt_fails_json.
  - clash H1 H2 jwt_fails_base64.
  - clash H1 H2 jwt_fails_unixTimestamp.
  - clash H1 H2 jwt_fails_regex.
  - clash H2 H1 jwt_fails_json.
  - clash H1 H2 json_fails_base64.
  - clash H1 H2 json_fails_unixTimestamp.
  - clash H1 H2 json_fails_regex.
  - clash H2 H1 jwt_fails_base64.
  - clash H2 H1 json_fails_base64.
  - clash H2 H1 unixTimestamp_fails_base64.
  - clash H2 H1 jwt_fails_unixTimestamp.
  - clash H2 H1 json_fails_unixTimestamp.
  - clash H1 H2 unixTimestamp_fails_base64.
  - clash H1 H2 unixTimestamp_fails_regex.
  - clash H2 H1 jwt_fails_regex.
  - clash H2 H1 json_fails_regex.
  - clash H2 H1 unixTimestamp_fails_regex.
Qed.

(** The one overlap: a regular-expression literal of base64 characters. *)
Lemma patterns_overlap_only_regex_base64_witness :
  test (pattern (DETECTION_PATTERNS 1700000000000 RegExp_new_plain regex))
       (js "/abcdefghijklmnopqrstuv/") = true /\
  test (pattern (DETECTION_PATTERNS 1700000000000 RegExp_new_plain base64))
       (js "/abcdefghijklmnopqrstuv/") = true /\
  (regex = base64 \/ (regex = regex /\ base64 = base64)
   \/ (regex = base64 /\ base64 = regex)).
Proof.
  split; [reflexivity|]. split; [reflexivity|].
  apply (@patterns_overlap_only_regex_base64 1700000000000 RegExp_new_plain
           (js "/abcdefghijklmnopqrstuv/")); reflexivity.
Defined.


(** ** The json and the regex descriptors *)

Lemma json_pattern_open_bracket (c : code_unit) (rest : jsstring) :
  is_open_bracket c = true -> test json_pattern (c :: rest) = true.
Proof.
  intro Hc. unfold test, json_pattern; cbn [end_anchor body].
  apply prefix_match_lang. exists [c], rest. split; [reflexivity|].
  apply (lang_cat_nil_l (lang_star_nil _) (lang_class _ c Hc)).
Qed.

Lemma json_validate_spec (t : jsstring) :
  json_validate t = Normal true <-> exists v, JSON.parse (trim t) = Normal v.
Proof.
  unfold json_validate. destruct (JSON.parse (trim t)) as [v|e]; cbn [bind try_catch].
  - split; eauto.
  - split; [intro H; discriminate H | intros [v H]; discriminate H].
Qed.

Lemma regex_validate_spec
  (RegExp_new : jsstring -> jsstring -> completion unit) (t : jsstring) :
  regex_validate RegExp_new t = Normal true <->
  exists source flags,
    regex_literal_match (trim t) = Some (source, flags) /\
    RegExp_new source flags = Normal tt.
Proof.
  unfold regex_validate.
  destruct (regex_literal_match (trim t)) as [[source flags]|] eqn:E.
  - destruct (RegExp_new source flags) as [[]|e] eqn:Er; cbn [bind try_catch].
    + split; [intros _; exists source, flags; auto | reflexivity].
    + split; [intro H; discriminate H|].
      intros (s' & f' & Em & Hr). injection Em as <- <-.
      rewrite Er in Hr. discriminate Hr.
  - cbn [try_catch]. split; [intro H; discriminate H|].
    intros (s' & f' & Em & _). discriminate Em.
Qed.

Lemma exclusion_sym (a b : bool) :
  (a = true -> b = false) -> b = true -> a = false.
Proof. destruct a, b; intros H1 H2; auto; discriminate (H1 eq_refl). Qed.

Section Descriptors.

Variable now : Z.
Variable RegExp_new : jsstring -> jsstring -> completion unit.

Lemma passes_false_pattern (t : jsstring) (k : format_key) :
  test (pattern (DETECTION_PATTERNS now RegExp_new k)) t = false ->
  passes now RegExp_new t k = false.
Proof. intro H. unfold passes. rewrite H. reflexivity. Qed.

(** X3.  [detectFormat] returns the format json exactly when the trimmed
    text begins with a square or curly opening bracket and the whole of it
    parses as JSON; the result is then json, tool json, confidence 0.9.
    A JSON document that is a bare number, string, [true], [false] or
    [null] is never classified json. *)
Theorem detectFormat_json (s : jsstring) :
  ((exists r, detectFormat now RegExp_new s = Normal (Some r)
              /\ format r = js "json")
   <->
   (exists c rest v,
      trim s = c :: rest /\ is_open_bracket c = true /\
      JSON.parse (trim s) = Normal v))
  /\
  ((exists c rest v,
      trim s = c :: rest /\ is_open_bracket c = true /\
      JSON.parse (trim s) = Normal v) ->
   detectFormat now RegExp_new s
   = Normal (Some {| format := js "json"; tool := js "json";
                     confidence := 9 # 10 |})).
Proof.
  assert (Hback : (exists c rest v,
      trim s = c :: rest /\ is_open_bracket c = true /\
      JSON.parse (trim s) = Normal v) ->
    detectFormat now RegExp_new s = Normal (Some (result_of now RegExp_new json))).
  { intros (c & rest & v & E & Hc & Hv).
    apply detectFormat_single.
    assert (Hpat : test json_pattern (trim s) = true)
      by (rewrite E; apply json_pattern_open_bracket, Hc).
    unfold DETECTION_ORDER. cbn [filter].
    rewrite (@passes_false_pattern (trim s) jwt)
      by (apply (exclusion_sym (@jwt_fails_json (trim s))), Hpat).
    rewrite (@passes_false_pattern (trim s) unixTimestamp)
      by (apply json_fails_unixTimestamp, Hpat).
    rewrite (@passes_false_pattern (trim s) regex)
      by (apply json_fails_regex, Hpat).
    rewrite (@passes_false_pattern (trim s) base64)
      by (apply json_fails_base64, Hpat).
    unfold passes. cbn [DETECTION_PATTERNS pattern validate]. rewrite Hpat.
    assert (Hval : json_validate (trim s) = Normal true)
      by (apply json_validate_spec; rewrite trim_trim; eauto).
    rewrite Hval. reflexivity. }
  split; [split|exact Hback].
  - intros (r & Hr & Hf).
    apply detectFormat_some_passes in Hr as (k & -> & Hp).
    apply (@key_name_injective k json) in Hf. subst k.
    unfold passes in Hp. cbn [DETECTION_PATTERNS pattern validate] in Hp.
    apply andb_true_iff in Hp as [Hpat Hval].
    apply json_pattern_head in Hpat as (c & rest & E & Hc).
    destruct (json_validate (trim s)) as [[|]|] eqn:Ev; try discriminate Hval.
    apply json_validate_spec in Ev as [v Hv]. rewrite trim_trim in Hv.
    exists c, rest, v. split; [assumption|]. split; [|assumption].
    destruct Hc as [Hs | Hb]; [|assumption].
    rewrite (@trim_head s c) in Hs by (rewrite E; reflexivity). discriminate Hs.
  - intro H. exists (result_of now RegExp_new json).
    split; [apply Hback, H | reflexivity].
Qed.

(** X4.  [detectFormat] returns the format regex exactly when the trimmed
    text is a slash, a source without line terminator, a slash and flags
    among [gimsuy], and the engine compiles that source with those flags;
    the result is then regex, tool regex, confidence 0.9, whether or not
    the base64 descriptor accepts the text as well. *)
Theorem detectFormat_regex (s : jsstring) :
  ((exists r, detectFormat now RegExp_new s = Normal (Some r)
              /\ format r = js "regex")
   <->
   (exists source flags,
      trim s = cu "/" :: source ++ cu "/" :: flags /\
      forallb is_dot_char source = true /\
      forallb is_flag flags = true /\
      RegExp_new source flags = Normal tt))
  /\
  ((exists source flags,
      trim s = cu "/" :: source ++ cu "/" :: flags /\
      forallb is_dot_char source = true /\
      forallb is_flag flags = true /\
      RegExp_new source flags = Normal tt) ->
   detectFormat now RegExp_new s
   = Normal (Some {| format := js "regex"; tool := js "regex";
                     confidence := 9 # 10 |})).
Proof.
  assert (Hback : (exists source flags,
      trim s = cu "/" :: source ++ cu "/" :: flags /\
      forallb is_dot_char source = true /\
      forallb is_flag flags = true /\
      RegExp_new source flags = Normal tt) ->
    detectFormat now RegExp_new s = Normal (Some (result_of now RegExp_new regex))).
  { intros (source & flags & E & Hs & Hfl & Hn).
    assert (Em : regex_literal_match (trim s) = Some (source, flags))
      by (apply regex_literal_match_spec; auto).
    assert (Hpat : test regex_pattern (trim s) = true)
      by (apply regex_pattern_match; eauto).
    assert (Hval : regex_validate RegExp_new (trim s) = Normal true)
      by (apply regex_validate_spec; rewrite trim_trim; eauto).
    rewrite detectFormat_spec.
    unfold DETECTION_ORDER. cbn [filter].
    rewrite (@passes_false_pattern (trim s) jwt)
      by (apply (exclusion_sym (@jwt_fails_regex (trim s))), Hpat).
    rewrite (@passes_false_pattern (trim s) json)
      by (apply (exclusion_sym (@json_fails_regex (trim s))), Hpat).
    rewrite (@passes_false_pattern (trim s) unixTimestamp)
      by (apply (exclusion_sym (@unixTimestamp_fails_regex (trim s))), Hpat).
    assert (Hp : passes now RegExp_new (trim s) regex = true).
    { unfold passes. cbn [DETECTION_PATTERNS pattern validate].
      rewrite Hpat, Hval. reflexivity. }
    rewrite Hp. destruct (passes now RegExp_new (trim s) base64); reflexivity. }
  split; [split|exact Hback].
  - intros (r & Hr & Hf).
    apply detectFormat_some_passes in Hr as (k & -> & Hp).
    apply (@key_name_injective k regex) in Hf. subst k.
    unfold passes in Hp. cbn [DETECTION_PATTERNS pattern validate] in Hp.
    apply andb_true_iff in Hp as [_ Hval].
    destruct (regex_validate RegExp_new (trim s)) as [[|]|] eqn:Ev;
      try discriminate Hval.
    apply regex_validate_spec in Ev as (source & flags & Em & Hn).
    rewrite trim_trim in Em. apply regex_literal_match_spec in Em as (E & Hs & Hfl).
    exists source, flags. auto.
  - intro H. exists (result_of now RegExp_new regex).
    split; [apply Hback, H | reflexivity].
Qed.

End Descriptors.


(** ** Texts that no descriptor accepts *)

Lemma jwt_pattern_chars (t : jsstring) :
  test jwt_pattern t = true ->
  forallb (fun c => is_base64_char c || (c =? cu ".")) t = true.
Proof.
  intro H. apply jwt_pattern_spec in H as (a & b & c & -> & _ & _ & Ha & Hb & Hc).
  rewrite forallb_forall in Ha, Hb, Hc.
  apply forallb_forall. intros x Hx.
  assert (Hw : is_base64url_char x = true \/ x = cu ".").
  { apply in_app_or in Hx as [Hx | [<- | Hx]]; auto.
    apply in_app_or in Hx as [Hx | [<- | Hx]]; auto. }
  destruct Hw as [Hw | ->].
  - rewrite (@base64url_char_is_base64_char x Hw). reflexivity.
  - rewrite N.eqb_refl. apply orb_true_r.
Qed.

Lemma forallb_weaken (p q : code_unit -> bool) (l : jsstring) :
  (forall x, p x = true -> q x = true) ->
  forallb p l = true -> forallb q l = true.
Proof.
  intros H Hl. apply forallb_forall. intros x Hx.
  rewrite forallb_forall in Hl. auto.
Qed.

Lemma forallb_existsb_clash (p : code_unit -> bool) (l : jsstring) :
  forallb p l = true -> existsb (fun c => negb (p c)) l = true -> False.
Proof.
  intros Hf He. apply existsb_exists in He as (x & Hx & Hn).
  rewrite forallb_forall in Hf. rewrite (Hf x Hx) in Hn. discriminate Hn.
Qed.

(** X5.  A text is classified as nothing when, once trimmed, it holds a
    character outside the letters, the digits and [+ / = _ - .] and does
    not begin with a square or curly opening bracket or with a slash:
    prose, with its blanks and punctuation, is never taken for one of the
    five formats. *)
Theorem detectFormat_foreign_character
  (now : Z) (RegExp_new : jsstring -> jsstring -> completion unit)
  (s : jsstring) :
  existsb (fun c => negb (is_base64_char c || (c =? cu "."))) (trim s) = true ->
  (forall c, hd_error (trim s) = Some c ->
             is_open_bracket c = false /\ (c =? cu "/") = false) ->
  detectFormat now RegExp_new s = Normal None.
Proof.
  intros Hx Hh. apply detectFormat_none.
  unfold DETECTION_ORDER. cbn [filter].
  assert (Hjwt : test jwt_pattern (trim s) = false).
  { destruct (test jwt_pattern (trim s)) eqn:E; [|reflexivity].
    exfalso.
    apply (@forallb_existsb_clash (fun c => is_base64_char c || (c =? cu "."))
             (trim s)); [apply jwt_pattern_chars, E | assumption]. }
  assert (Hjson : test json_pattern (trim s) = false).
  { destruct (test json_pattern (trim s)) eqn:E; [|reflexivity].
    apply json_pattern_head in E as (c & rest & E & Hc).
    destruct (Hh c) as [Hb _]; [rewrite E; reflexivity|].
    destruct Hc as [Hs | Hc]; [|congruence].
    rewrite (@trim_head s c) in Hs by (rewrite E; reflexivity). discriminate Hs. }
  assert (Hunix : test unixTimestamp_pattern (trim s) = false).
  { destruct (test unixTimestamp_pattern (trim s)) eqn:E; [|reflexivity].
    apply unixTimestamp_pattern_spec in E as [Hd _].
    exfalso.
    apply (@forallb_existsb_clash (fun c => is_base64_char c || (c =? cu "."))
             (trim s)); [|assumption].
    apply (@forallb_weaken is_digit); [|assumption].
    intros x Hd'. rewrite (@digit_is_base64_char x Hd'). reflexivity. }
  assert (Hregex : test regex_pattern (trim s) = false).
  { destruct (test regex_pattern (trim s)) eqn:E; [|reflexivity].
    apply regex_pattern_head in E as (rest & E).
    destruct (Hh (cu "/")) as [_ Hn]; [rewrite E; reflexivity|].
    rewrite N.eqb_refl in Hn. discriminate Hn. }
  assert (Hb64 : test base64_pattern (trim s) = false).
  { destruct (test base64_pattern (trim s)) eqn:E; [|reflexivity].
    apply base64_pattern_spec in E as [Hb _].
    exfalso.
    apply (@forallb_existsb_clash (fun c => is_base64_char c || (c =? cu "."))
             (trim s)); [|assumption].
    apply (@forallb_weaken is_base64_char); [|assumption].
    intros x Hb'. rewrite Hb'. reflexivity. }
  rewrite !passes_false_pattern by assumption. reflexivity.
Qed.

(** Scenario 6 of the specification: blanks inside, a letter in front. *)
Lemma detectFormat_foreign_character_witness :
  existsb (fun c => negb (is_base64_char c || (c =? cu ".")))
          (trim (js "not a recognizable format at all")) = true /\
  (forall c, hd_error (trim (js "not a recognizable format at all")) = Some c ->
             is_open_bracket c = false /\ (c =? cu "/") = false) /\
  detectFormat 1700000000000 RegExp_new_plain (js "not a recognizable format at all")
  = Normal None.
Proof.
  assert (H : forall c, hd_error (trim (js "not a recognizable format at all")) = Some c ->
             is_open_bracket c = false /\ (c =? cu "/") = false).
  { intros c E. vm_compute in E. injection E as <-. split; reflexivity. }
  split; [reflexivity|]. split; [exact H|].
  apply detectFormat_foreign_character; [reflexivity | exact H].
Defined.

(** ** Detections and the clock *)

Lemma unixTimestamp_validate_later (now1 now2 : Z) (t : jsstring) :
  (now1 <= now2)%Z ->
  all_digits t = true -> t <> [] ->
  unixTimestamp_validate now1 t = Normal true ->
  unixTimestamp_validate now2 t = Normal true.
Proof.
  intros Hle Hd Hne.
  rewrite !(@unixTimestamp_validate_digits _ t Hd Hne).
  destruct (Nat.eqb (length t) 10).
  - intro H. injection H as H. apply andb_true_iff in H as [H1 H2].
    apply Z.ltb_lt in H2. f_equal. rewrite H1. cbn [andb]. apply Z.ltb_lt. lia.
  - destruct (Nat.eqb (length t) 13); [|intro H; discriminate H].
    intro H. injection H as H. apply andb_true_iff in H as [H1 H2].
    apply Z.ltb_lt in H2. f_equal. rewrite H1. cbn [andb]. apply Z.ltb_lt. lia.
Qed.

(** X6.  A detection is kept as the clock advances: when [detectFormat]
    returns a result at one clock reading it returns the same result at
    every later one.  (A text can only pass from no detection to
    unixTimestamp, never back.) *)
Theorem detectFormat_kept_as_clock_advances
  (now1 now2 : Z) (RegExp_new : jsstring -> jsstring -> completion unit)
  (s : jsstring) (r : DetectionResult) :
  (now1 <= now2)%Z ->
  detectFormat now1 RegExp_new s = Normal (Some r) ->
  detectFormat now2 RegExp_new s = Normal (Some r).
Proof.
  intros Hle H.
  destruct (test unixTimestamp_pattern (trim s)) eqn:E.
  - apply unixTimestamp_pattern_spec in E as [Hd Hl].
    assert (Hne : trim s <> []) by (intro E; rewrite E in Hl; simpl in Hl; lia).
    rewrite detectFormat_spec in H |- *.
    rewrite filter_passes_digits in H |- * by assumption.
    destruct (unixTimestamp_validate now1 (trim s)) as [[|]|] eqn:Ev;
      try discriminate H.
    rewrite (@unixTimestamp_validate_later now1 now2 (trim s) Hle Hd Hne Ev). exact H.
  - rewrite <- H. rewrite !detectFormat_spec. f_equal. f_equal. f_equal.
    rewrite (map_ext _ _ (result_of_clock now2 now1 RegExp_new)).
    f_equal. apply filter_ext. intro k. apply passes_clock.
    intros [Hd Hl]. assert (Hp : test unixTimestamp_pattern (trim s) = true)
      by (apply unixTimestamp_pattern_spec; split; [assumption | lia]).
    congruence.
Qed.

(** A timestamp of 2023, read in 2023 and in 2100. *)
Lemma detectFormat_kept_as_clock_advances_witness :
  (1700000000000 <= 4102444800000)%Z /\
  detectFormat 1700000000000 RegExp_new_plain (js "1700000000")
  = Normal (Some {| format := js "unixTimestamp"; tool := js "timestamp";
                    confidence := 85 # 100 |}) /\
  detectFormat 4102444800000 RegExp_new_plain (js "1700000000")
  = Normal (Some {| format := js "unixTimestamp"; tool := js "timestamp";
                    confidence := 85 # 100 |}).
Proof.
  split; [lia|]. split; [reflexivity|].
  apply (@detectFormat_kept_as_clock_advances 1700000000000 4102444800000
           RegExp_new_plain (js "1700000000")); [lia | reflexivity].
Defined.


(** ** The events the router delivers *)

(** X7.  The event that [processContent] hands to [onDetect] echoes the
    text as it was given and is otherwise one of six fixed records, the
    five detections with their display names and the unknown format: the
    look-ups of the display names never fall back to the raw key. *)
Theorem delivered_event_closed
  (now : Z) (RegExp_new : jsstring -> jsstring -> completion unit)
  (content : jsstring) :
  let event fmt tl conf display name :=
    {| p_content := content; p_format := fmt; p_tool := tl;
       p_confidence := conf; p_displayName := display;
       p_toolName := name |} in
  let ev := delivered_event now RegExp_new content in
  ev = event (js "jwt") (js "jwt") (95 # 100) (js "JWT Token") (js "JWT Decoder")
  \/ ev = event (js "json") (js "json") (9 # 10) (js "JSON") (js "JSON Formatter")
  \/ ev = event (js "unixTimestamp") (js "timestamp") (85 # 100)
                (js "Unix Timestamp") (js "Unix Time Converter")
  \/ ev = event (js "regex") (js "regex") (9 # 10)
                (js "Regular Expression") (js "Regex Tester")
  \/ ev = event (js "base64") (js "base64") (7 # 10)
                (js "Base64") (js "Base64 Encoder/Decoder")
  \/ ev = event (js "unknown") (js "json") 0%Q
                (js "Unknown Format") (js "JSON Formatter").
Proof.
  intros event ev. subst ev. unfold delivered_event.
  destruct (detectFormat_normal now RegExp_new content) as [[r|] H]; rewrite H.
  - apply detectFormat_some_passes in H as (k & -> & _).
    destruct k; unfold event;
      [left | right; left | do 4 right; left | do 2 right; left | do 3 right; left];
      reflexivity.
  - do 5 right. reflexivity.
Qed.

(** ** The handler of global paste events *)

Section GlobalPasteFacts.

Variable World : Type.
Variable now : Z.
Variable RegExp_new : jsstring -> jsstring -> completion unit.

Lemma processContent_calls (self : SmartPaste World) (content : jsstring) (w : World) :
  calls (processContent now RegExp_new self content w) <> [].
Proof.
  rewrite processContent_outcome. cbn zeta.
  destruct (onDetect self _ w) as [w1 [u|e]]; discriminate.
Qed.

(** X8.  [handleGlobalPaste] does nothing (no callback, the world as it
    was, a normal return) when the router is disabled, when the target is
    an [INPUT] or a [TEXTAREA] that has neither the class [paste-input]
    nor an [id] containing [smart], and when the event carries no clipboard
    data or an empty text; in every other case it is [processContent] on
    the clipboard text, untrimmed.  It calls no callback exactly in the
    cases listed. *)
Theorem handleGlobalPaste_forwards
  (self : SmartPaste World) (event : ClipboardEvent) (w : World) :
  let ignored :=
    enabled self = false
    \/ (is_text_field (target event) = true
        /\ has_paste_input_class (target event) = false
        /\ id_includes_smart (target event) = false)
    \/ clipboardData event = None
    \/ clipboardData event = Some [] in
  (ignored ->
   handleGlobalPaste now RegExp_new self event w
   = {| calls := []; world_after := w; self_after := self;
        completion_of := Normal tt |})
  /\
  (~ ignored ->
   exists content,
     clipboardData event = Some content /\
     handleGlobalPaste now RegExp_new self event w
     = processContent now RegExp_new self content w)
  /\
  (calls (handleGlobalPaste now RegExp_new self event w) = [] <-> ignored).
Proof.
  intro ignored.
  assert (Hyes : ignored ->
    handleGlobalPaste now RegExp_new self event w = idle self w tt).
  { unfold handleGlobalPaste. intros [He | [(Ht & Hc & Hi) | [Hn | Hn]]].
    - rewrite He. reflexivity.
    - rewrite Ht, Hc, Hi. destruct (enabled self); reflexivity.
    - rewrite Hn. destruct (enabled self); cbn [negb];
        [destruct (_ && _)|]; reflexivity.
    - rewrite Hn. destruct (enabled self); cbn [negb];
        [destruct (_ && _)|]; reflexivity. }
  assert (Hno : ~ ignored ->
    exists content, clipboardData event = Some content /\
      handleGlobalPaste now RegExp_new self event w
      = processContent now RegExp_new self content w).
  { intro Hn. unfold handleGlobalPaste, ignored in *.
    destruct (enabled self); [|tauto]. cbn [negb].
    destruct (is_text_field (target event));
      destruct (has_paste_input_class (target event));
      destruct (id_includes_smart (target event));
      cbn [negb andb]; try tauto;
      (destruct (clipboardData event) as [[|c content]|]; [tauto | eauto | tauto]). }
  split; [exact Hyes|]. split; [exact Hno|].
  split.
  - intro Hc.
    assert (Hd : ignored \/ ~ ignored).
    { unfold ignored.
      destruct (enabled self); [|auto].
      destruct (clipboardData event) as [[|c content]|]; [auto 6 | | auto 6].
      destruct (is_text_field (target event)),
        (has_paste_input_class (target event)),
        (id_includes_smart (target event));
        try (left; right; left; auto; fail);
        right; intros [H | [(H1 & H2 & H3) | [H | H]]]; discriminate. }
    destruct Hd as [Hd | Hd]; [assumption|].
    destruct (Hno Hd) as (content & _ & E). rewrite E in Hc.
    exfalso. apply (processContent_calls _ _ _ Hc).
  - intro Hi. rewrite (Hyes Hi). reflexivity.
Qed.

End GlobalPasteFacts.


(** ** Subscribing and unsubscribing *)

Section LifecycleFacts.

Variable World : Type.
Variable now : Z.
Variable RegExp_new : jsstring -> jsstring -> completion unit.

Lemma lifecycle_app (self : SmartPaste World) (cs1 cs2 : list lifecycle_call)
  (w : World) :
  lifecycle self (cs1 ++ cs2) w = lifecycle (lifecycle self cs1 w) cs2 w.
Proof.
  revert self. induction cs1 as [|c cs1 IH]; intro self; cbn [app lifecycle].
  - reflexivity.
  - apply IH.
Qed.

Lemma lifecycle_callbacks (cs : list lifecycle_call) (w : World) :
  forall self : SmartPaste World,
    onDetect (lifecycle self cs w) = onDetect self
    /\ onError (lifecycle self cs w) = onError self.
Proof.
  induction cs as [|c cs IH]; intro self; cbn [lifecycle].
  - auto.
  - destruct (IH (lifecycle_step self c w)) as [-> ->]. destruct c; auto.
Qed.

(** X9.  After any sequence of calls of [enable] and [disable] on a new
    router the callbacks are those given to the constructor, and a paste
    event on the document reaches [handleGlobalPaste] exactly when the
    last call was [enable]; in particular a new router, although its
    [enabled] flag is set, does not react before [enable] is called. *)
Theorem document_paste_follows_last_call
  (options : Options World) (cs : list lifecycle_call)
  (event : ClipboardEvent) (w : World) :
  let self := lifecycle (new_SmartPaste options) cs w in
  onDetect self = onDetect (new_SmartPaste options) /\
  onError self = onError (new_SmartPaste options) /\
  ((exists cs', cs = cs' ++ [CallEnable]) ->
   enabled self = true /\ listening self = true /\
   document_paste now RegExp_new self event w
   = handleGlobalPaste now RegExp_new self event w) /\
  (~ (exists cs', cs = cs' ++ [CallEnable]) ->
   listening self = false /\
   document_paste now RegExp_new self event w
   = {| calls := []; world_after := w; self_after := self;
        completion_of := Normal tt |}).
Proof.
  intro self.
  destruct (lifecycle_callbacks cs w (new_SmartPaste options)) as [Hd He].
  split; [exact Hd|]. split; [exact He|].
  subst self. destruct cs as [|c cs] using rev_ind.
  - split.
    + intros (cs' & E). destruct cs'; discriminate E.
    + intros _. split; reflexivity.
  - clear IHcs. rewrite lifecycle_app. cbn [lifecycle]. split.
    + intros (cs' & E). apply app_inj_tail in E as [_ ->].
      repeat split.
    + intro Hn. destruct c.
      * exfalso. apply Hn. exists cs. reflexivity.
      * split; reflexivity.
Qed.

End LifecycleFacts.

(** ** The application *)

Section ApplicationFacts.

Variable Page : Type.
Variable console_log : PasteEvent -> Page -> Page.
Variable console_error_tool : jsstring -> Page -> Page.
Variable console_error_paste : exn -> Page -> Page.
Variable toast_info : jsstring -> Page -> Page * completion unit.
Variable toast_error : jsstring -> Page -> Page * completion unit.
Variable show_tool :
  jsstring -> jsstring * jsstring -> jsstring -> Page -> Page * completion unit.
Variable now : Z.
Variable RegExp_new : jsstring -> jsstring -> completion unit.

Let detect := app_onDetect console_log console_error_tool toast_info show_tool.

(** X10.  The [onDetect] callback of the application, run on the event of
    any text, never meets the unknown-tool branch of [switchTool]: for a
    detection it shows the tool of the detection, which [toolDefinitions]
    defines, with the text as initial content, then toasts the display
    name; without a detection it shows the JSON formatter with the text
    and toasts nothing.  The threshold [confidence > 0.5] holds for every
    detection and fails for the fallback only. *)
Theorem app_onDetect_routes (content : jsstring) (p : Page) :
  let ev := delivered_event now RegExp_new content in
  match detectFormat now RegExp_new content with
  | Normal (Some r) =>
      exists definition,
        tool_definition (tool r) toolDefinitions = Some definition /\
        detect ev p =
        let (p2, c) := show_tool (tool r) definition content (console_log ev p) in
        match c with
        | Normal _ =>
            toast_info (js "Detected: " ++ getFormatDisplayName (format r)) p2
        | Throw e => (p2, Throw e)
        end
  | _ =>
      detect ev p =
      show_tool (js "json") (js "JSON Formatter", js "1") content (console_log ev p)
  end.
Proof.
  intro ev. subst ev. unfold delivered_event.
  destruct (detectFormat_normal now RegExp_new content) as [[r|] H]; rewrite H.
  - apply detectFormat_some_passes in H as (k & -> & _).
    destruct k; eexists; (split; [reflexivity|]); reflexivity.
  - reflexivity.
Qed.

End ApplicationFacts.


Lemma delivered_event_content
  (now : Z) (RegExp_new : jsstring -> jsstring -> completion unit)
  (content : jsstring) :
  p_content (delivered_event now RegExp_new content) = content.
Proof.
  unfold delivered_event.
  destruct (detectFormat now RegExp_new content) as [[r|]|e]; reflexivity.
Qed.

Section InputFacts.

Variable Page : Type.
Variable console_log : PasteEvent -> Page -> Page.
Variable console_error_tool : jsstring -> Page -> Page.
Variable console_error_paste : exn -> Page -> Page.
Variable toast_info : jsstring -> Page -> Page * completion unit.
Variable toast_error : jsstring -> Page -> Page * completion unit.
Variable show_tool :
  jsstring -> jsstring * jsstring -> jsstring -> Page -> Page * completion unit.
Variable now : Z.
Variable RegExp_new : jsstring -> jsstring -> completion unit.

Let app := app_smartPaste console_log console_error_tool console_error_paste
             toast_info toast_error show_tool.
Let input := on_smartPasteInput console_log console_error_tool console_error_paste
               toast_info toast_error show_tool now RegExp_new.

(** X11.  The listener of the smart paste box calls nothing while the
    value is blank, so the fallback event of a blank text is never
    produced by typing; on any other value it is [processContent] on the
    trimmed value: [onDetect] is called once with an event whose content
    is the trimmed value and whose detection is that of the raw value. *)
Theorem on_smartPasteInput_trims (value : jsstring) (p : Page) :
  (forallb is_space value = true ->
   input value p
   = {| calls := []; world_after := p; self_after := app;
        completion_of := Normal tt |})
  /\
  (forallb is_space value = false ->
   let ev := delivered_event now RegExp_new (trim value) in
   input value p = processContent now RegExp_new app (trim value) p /\
   (exists rest, calls (input value p) = CallDetect ev :: rest
                 /\ forall ev', ~ In (CallDetect ev') rest) /\
   p_content ev = trim value /\
   detectFormat now RegExp_new (trim value) = detectFormat now RegExp_new value).
Proof.
  split.
  - intro H. apply trim_spaces in H. subst input. unfold on_smartPasteInput.
    rewrite H. reflexivity.
  - intro H. cbv zeta.
    assert (Hin : input value p = processContent now RegExp_new app (trim value) p).
    { subst input. unfold on_smartPasteInput.
      destruct (trim value) as [|c t] eqn:E; [|reflexivity].
      apply trim_spaces in E. congruence. }
    rewrite Hin. split; [reflexivity|]. split; [|split].
    + rewrite processContent_outcome. cbn zeta.
      destruct (onDetect app _ p) as [p1 [[]|e0]]; cbn [calls].
      * exists []. split; [reflexivity | intros ev' []].
      * exists [CallError e0]. split; [reflexivity|].
        intros ev' [Hc | []]. discriminate Hc.
    + apply delivered_event_content.
    + apply detectFormat_same_trim, trim_trim.
Qed.

End InputFacts.

(** ** The length of a decoded text *)

Lemma b64_bytes_length_bound (n : nat) :
  forall vs, (length vs <= n)%nat ->
             (4 * length (b64_bytes vs) <= 3 * length vs)%nat.
Proof.
  induction n as [n IH] using lt_wf_ind. intros vs Hl.
  destruct vs as [|a [|b [|c [|d rest]]]]; cbn [b64_bytes length]; try lia.
  assert (H := IH (length rest) ltac:(cbn [length] in Hl; lia) rest (le_n _)).
  lia.
Qed.

Lemma b64_values_length (s : jsstring) :
  forall vs, b64_values s = Some vs -> length vs = length s.
Proof.
  induction s as [|c s IH]; cbn [b64_values]; intros vs H.
  - injection H as <-. reflexivity.
  - destruct (b64_value c); [|discriminate H].
    destruct (b64_values s) as [vs'|]; [|discriminate H].
    injection H as <-. cbn [length]. rewrite (IH vs' eq_refl). reflexivity.
Qed.

Lemma strip_padding_length (s : jsstring) :
  (length (strip_padding s) <= length s)%nat.
Proof.
  unfold strip_padding. destruct (_ =? 0); [|lia].
  destruct (rev s) as [|a [|b r]] eqn:E; cbv iota; [lia | lia |].
  assert (Hl : length s = S (S (length r))).
  { rewrite <- (length_rev s), E. reflexivity. }
  destruct (a =? cu "="); [|lia].
  destruct (b =? cu "="); rewrite length_rev; cbn [length]; lia.
Qed.

Lemma atob_length (s decoded : jsstring) :
  atob s = Normal decoded -> (4 * length decoded <= 3 * length s)%nat.
Proof.
  unfold atob.
  set (data := strip_padding (filter (fun c => negb (is_ascii_whitespace c)) s)).
  destruct (_ =? 1); [intro H; discriminate H|].
  destruct (b64_values data) as [vs|] eqn:E; [|intro H; discriminate H].
  intro H. injection H as <-.
  pose proof (@b64_bytes_length_bound (length vs) vs (le_n _)) as Hb.
  rewrite (b64_values_length _ E) in Hb.
  pose proof (strip_padding_length (filter (fun c => negb (is_ascii_whitespace c)) s)).
  pose proof (filter_length_le (fun c => negb (is_ascii_whitespace c)) s).
  fold data in H. lia.
Qed.

(** X12.  The printable-ratio heuristic of [base64.validate] never rejects
    a short text: a text without a dot whose trimmed form has at most 66
    characters and decodes is accepted, since it decodes to fewer than 50
    characters.  (A text of 67 characters can be rejected.) *)
Theorem base64_validate_short (t decoded : jsstring) :
  (length (trim t) <= 66)%nat ->
  includes (cu ".") (trim t) = false ->
  atob (to_standard_base64 (trim t)) = Normal decoded ->
  base64_validate t = Normal true.
Proof.
  intros Hl Hdot Ha. unfold base64_validate. rewrite Hdot, Ha. cbn [bind try_catch].
  apply atob_length in Ha. unfold to_standard_base64, replace_all in Ha.
  rewrite !length_map in Ha. change (@length N (trim t)) with (@length code_unit (trim t)) in Ha.
  assert (Hd : Nat.ltb (length decoded) 50 = true) by (apply Nat.ltb_lt; lia).
  rewrite Hd, orb_true_r. reflexivity.
Qed.

(** Sixty-six letters A decode to 49 zero bytes and are accepted;
    sixty-seven decode to 50 and are rejected. *)
Lemma base64_validate_short_witness :
  (length (trim (js "AAAAAAAAAAAAAAAAAAAAAAAAAAAAAAAAAAAAAAAAAAAAAAAAAAAAAAAAAAAAAAAAAA")) <= 66)%nat /\
  base64_validate (js "AAAAAAAAAAAAAAAAAAAAAAAAAAAAAAAAAAAAAAAAAAAAAAAAAAAAAAAAAAAAAAAAAA")
  = Normal true /\
  base64_validate (js "AAAAAAAAAAAAAAAAAAAAAAAAAAAAAAAAAAAAAAAAAAAAAAAAAAAAAAAAAAAAAAAAAAA")
  = Normal false.
Proof.
  split; [vm_compute; lia|]. split; [|reflexivity].
  destruct (atob (to_standard_base64
    (trim (js "AAAAAAAAAAAAAAAAAAAAAAAAAAAAAAAAAAAAAAAAAAAAAAAAAAAAAAAAAAAAAAAAAA"))))
    as [decoded|e] eqn:E; [|vm_compute in E; discriminate E].
  apply (@base64_validate_short _ decoded); [vm_compute; lia | reflexivity | exact E].
Defined.

(** ** The sort of the candidates *)

Lemma sort_insert_perm (x : DetectionResult) (l : list DetectionResult) :
  Permutation (sort_insert by_confidence x l) (x :: l).
Proof.
  induction l as [|y l IH]; cbn [sort_insert]; [apply Permutation_refl|].
  destruct (Qle_bool (by_confidence x y) 0); [apply Permutation_refl|].
  rewrite IH. apply perm_swap.
Qed.

Lemma sort_insert_HdRel (x y : DetectionResult) (l : list DetectionResult) :
  (confidence x <= confidence y)%Q ->
  HdRel (fun a b => (confidence b <= confidence a)%Q) y l ->
  HdRel (fun a b => (confidence b <= confidence a)%Q) y
        (sort_insert by_confidence x l).
Proof.
  intros Hx Hl. destruct l as [|z l]; cbn [sort_insert].
  - constructor. assumption.
  - destruct (Qle_bool (by_confidence x z) 0); constructor.
    + assumption.
    + inversion Hl; assumption.
Qed.

Lemma sort_insert_sorted (x : DetectionResult) (l : list DetectionResult) :
  Sorted (fun a b => (confidence b <= confidence a)%Q) l ->
  Sorted (fun a b => (confidence b <= confidence a)%Q)
         (sort_insert by_confidence x l).
Proof.
  induction 1 as [|y l Hs IH Hh]; cbn [sort_insert].
  - repeat constructor.
  - destruct (Qle_bool (by_confidence x y) 0) eqn:E.
    + apply by_confidence_le in E. repeat constructor; assumption.
    + constructor; [assumption|].
      apply sort_insert_HdRel; [|assumption].
      apply Qlt_le_weak, Qnot_le_lt. intro Hc.
      apply by_confidence_le in Hc. congruence.
Qed.

(** X13.  The sort of [detectFormat] keeps every candidate, once, and
    leaves the candidates in order of non-increasing confidence. *)
Theorem Array_sort_sorted_permutation (results : list DetectionResult) :
  Permutation (Array_sort by_confidence results) results /\
  Sorted (fun a b => (confidence b <= confidence a)%Q)
         (Array_sort by_confidence results).
Proof.
  induction results as [|x l [IHp IHs]]; cbn [Array_sort].
  - split; constructor.
  - split.
    + rewrite sort_insert_perm. constructor. assumption.
    + apply sort_insert_sorted, IHs.
Qed.


(** ** The guards of the validators behind the patterns *)

Lemma split_no_separator (sep : code_unit) (a : jsstring) :
  includes sep a = false -> split sep a = [a].
Proof.
  unfold includes. induction a as [|x a IH]; cbn [existsb split]; intro H.
  - reflexivity.
  - apply orb_false_iff in H as [Hx Ha]. rewrite N.eqb_sym, Hx, (IH Ha).
    reflexivity.
Qed.

Lemma split_at_separator (sep : code_unit) (a rest : jsstring) :
  includes sep a = false ->
  split sep (a ++ sep :: rest) = a :: split sep rest.
Proof.
  unfold includes. induction a as [|x a IH]; cbn [existsb split app]; intro H.
  - rewrite N.eqb_refl. reflexivity.
  - apply orb_false_iff in H as [Hx Ha]. rewrite N.eqb_sym, Hx, (IH Ha).
    reflexivity.
Qed.

Lemma base64url_char_not_dot (c : code_unit) :
  is_base64url_char c = true -> (cu "." =? c) = false.
Proof. intro H. class_arith. Qed.

Lemma jwt_pattern_split (t : jsstring) :
  test jwt_pattern t = true ->
  exists part0 part1 part2,
    split (cu ".") t = [part0; part1; part2] /\ part0 <> [] /\ part1 <> [].
Proof.
  intro H. apply jwt_pattern_spec in H as (a & b & c & -> & Ha & Hb & Pa & Pb & Pc).
  exists a, b, c. split; [|auto].
  rewrite !split_at_separator, split_no_separator;
    try reflexivity;
    apply (@includes_false_forall (cu ".") is_base64url_char);
    auto using base64url_char_not_dot.
Qed.

(** X14.  Inside [detectFormat] three guards of the validators never
    fire, the patterns having decided already: a text that passes the jwt
    pattern splits on the dot into exactly three parts, the first two not
    empty; a text that passes the base64 pattern holds no dot; and on a
    text that passes the regex pattern the match of [regex.validate] is
    not [null]. *)
Theorem validator_guards_behind_patterns (s : jsstring) :
  (test jwt_pattern (trim s) = true ->
   exists part0 part1 part2,
     split (cu ".") (trim (trim s)) = [part0; part1; part2]
     /\ part0 <> [] /\ part1 <> []) /\
  (test base64_pattern (trim s) = true ->
   includes (cu ".") (trim (trim s)) = false) /\
  (test regex_pattern (trim s) = true ->
   exists source flags,
     regex_literal_match (trim (trim s)) = Some (source, flags)).
Proof.
  rewrite trim_trim. split; [apply jwt_pattern_split|]. split.
  - intro H. apply base64_pattern_spec in H as [Hb _].
    apply (@includes_false_forall (cu ".") is_base64_char);
      auto using base64_char_not_dot.
  - apply regex_pattern_match.
Qed.


(** ** Padding *)

Lemma to_standard_base64_map (s : jsstring) :
  to_standard_base64 s =
  map (fun c => if (if c =? cu "-" then cu "+" else c) =? cu "_"
                then cu "/" else (if c =? cu "-" then cu "+" else c)) s.
Proof. unfold to_standard_base64, replace_all. apply map_map. Qed.

Lemma standard_char_equals (c : code_unit) :
  ((if (if c =? cu "-" then cu "+" else c) =? cu "_"
    then cu "/" else (if c =? cu "-" then cu "+" else c)) =? cu "=")
  = (c =? cu "=").
Proof.
  destruct (c =? cu "-") eqn:E1.
  - apply N.eqb_eq in E1. subst c. reflexivity.
  - destruct (c =? cu "_") eqn:E2; [|reflexivity].
    apply N.eqb_eq in E2. subst c. reflexivity.
Qed.

Lemma standard_char_not_whitespace (c : code_unit) :
  is_base64_char c = true ->
  is_ascii_whitespace
    (if (if c =? cu "-" then cu "+" else c) =? cu "_"
     then cu "/" else (if c =? cu "-" then cu "+" else c)) = false.
Proof.
  intro H.
  destruct (c =? cu "-") eqn:E1; [reflexivity|].
  destruct (c =? cu "_") eqn:E2; [reflexivity|].
  class_arith.
Qed.

Lemma to_standard_base64_no_whitespace (t : jsstring) :
  forallb is_base64_char t = true ->
  filter (fun c => negb (is_ascii_whitespace c)) (to_standard_base64 t)
  = to_standard_base64 t.
Proof.
  intro H. rewrite to_standard_base64_map.
  induction t as [|c t IH]; cbn [map filter forallb] in *; [reflexivity|].
  apply andb_true_iff in H as [Hc Ht].
  rewrite (standard_char_not_whitespace _ Hc). cbn [negb]. rewrite (IH Ht).
  reflexivity.
Qed.

Lemma to_standard_base64_equals (t : jsstring) :
  includes (cu "=") (to_standard_base64 t) = includes (cu "=") t.
Proof.
  rewrite to_standard_base64_map. unfold includes.
  induction t as [|c t IH]; cbn [map existsb]; [reflexivity|].
  rewrite IH. f_equal. rewrite !(N.eqb_sym (cu "=")). apply standard_char_equals.
Qed.

Lemma b64_values_no_equals (data : jsstring) (vs : list N) :
  b64_values data = Some vs -> includes (cu "=") data = false.
Proof.
  revert vs. unfold includes.
  induction data as [|c data IH]; cbn [b64_values existsb]; intros vs H.
  - reflexivity.
  - destruct (b64_value c) eqn:Ec; [|discriminate H].
    destruct (b64_values data) as [vs'|]; [|discriminate H].
    rewrite (IH vs' eq_refl), orb_false_r.
    destruct (cu "=" =? c) eqn:E; [|reflexivity].
    apply N.eqb_eq in E. subst c. discriminate Ec.
Qed.

(** What is left when [strip_padding] changed the text. *)
Lemma strip_padding_cases (u : jsstring) :
  strip_padding u = u
  \/ (N.of_nat (length u) mod 4 = 0
      /\ (u = strip_padding u ++ [cu "="]
          \/ u = strip_padding u ++ [cu "="; cu "="])).
Proof.
  unfold strip_padding.
  destruct (N.of_nat (length u) mod 4 =? 0) eqn:Em; [|auto].
  apply N.eqb_eq in Em.
  destruct (rev u) as [|a [|b r]] eqn:E; [auto | auto |].
  assert (Hu : u = rev r ++ [b] ++ [a]).
  { rewrite <- (rev_involutive u), E. cbn [rev]. rewrite <- app_assoc. reflexivity. }
  destruct (a =? cu "=") eqn:Ea; [|auto].
  apply N.eqb_eq in Ea. subst a. right. split; [assumption|].
  destruct (b =? cu "=") eqn:Eb.
  - apply N.eqb_eq in Eb. subst b. right. exact Hu.
  - left. rewrite Hu at 1. cbn [rev]. rewrite <- app_assoc. reflexivity.
Qed.

(** X15.  The base64 descriptor takes padding at the end only: when it
    passes on a text that holds an equals sign, the trimmed text has a
    length that is a multiple of four and is a body without equals sign
    followed by one or two of them. *)
Theorem base64_padding_at_the_end (s : jsstring) :
  test base64_pattern (trim s) = true ->
  base64_validate (trim s) = Normal true ->
  includes (cu "=") (trim s) = true ->
  N.of_nat (length (trim s)) mod 4 = 0 /\
  exists body,
    includes (cu "=") body = false /\
    (trim s = body ++ [cu "="] \/ trim s = body ++ [cu "="; cu "="]).
Proof.
  intros Hp Hv He.
  apply base64_pattern_spec in Hp as [Hb _].
  unfold base64_validate in Hv. rewrite trim_trim in Hv.
  destruct (includes (cu ".") (trim s)); [discriminate Hv|].
  destruct (atob (to_standard_base64 (trim s))) as [decoded|e] eqn:Ea;
    [|discriminate Hv].
  clear Hv. unfold atob in Ea.
  rewrite (to_standard_base64_no_whitespace _ Hb) in Ea.
  destruct (_ =? 1); [discriminate Ea|].
  destruct (b64_values (strip_padding (to_standard_base64 (trim s))))
    as [vs|] eqn:Ev; [|discriminate Ea].
  apply b64_values_no_equals in Ev.
  rewrite <- to_standard_base64_equals in He.
  destruct (strip_padding_cases (to_standard_base64 (trim s))) as [E | [Hm Hu]].
  - rewrite E in Ev. congruence.
  - split.
    + rewrite to_standard_base64_map, length_map in Hm. exact Hm.
    + set (data := strip_padding (to_standard_base64 (trim s))) in *.
      rewrite to_standard_base64_map in Hu.
      assert (Hback : forall pad,
        map (fun c => if (if c =? cu "-" then cu "+" else c) =? cu "_"
                      then cu "/" else (if c =? cu "-" then cu "+" else c))
            (trim s) = data ++ pad ->
        forallb (N.eqb (cu "=")) pad = true ->
        exists body, includes (cu "=") body = false /\ trim s = body ++ pad).
      { intros pad Hmap Hpad.
        apply map_eq_app in Hmap as (body & pad' & Et & Hbody & Hpad').
        exists body. split.
        - rewrite <- to_standard_base64_equals, to_standard_base64_map, Hbody.
          exact Ev.
        - rewrite Et. f_equal. subst pad. clear - Hpad.
          induction pad' as [|c pad' IH]; cbn [map forallb] in *; [reflexivity|].
          apply andb_true_iff in Hpad as [Hc Hr].
          rewrite N.eqb_sym, standard_char_equals in Hc.
          apply N.eqb_eq in Hc. subst c. f_equal. apply IH, Hr. }
      destruct Hu as [Hu | Hu].
      * destruct (Hback _ Hu eq_refl) as (body & Hn & Ht). eauto.
      * destruct (Hback _ Hu eq_refl) as (body & Hn & Ht). eauto.
Qed.

(** The text of scenario 5, padded with two equals signs. *)
Lemma base64_padding_at_the_end_witness :
  test base64_pattern (trim (js "SGVsbG8sIFdvcmxkIQ==")) = true /\
  base64_validate (trim (js "SGVsbG8sIFdvcmxkIQ==")) = Normal true /\
  includes (cu "=") (trim (js "SGVsbG8sIFdvcmxkIQ==")) = true /\
  N.of_nat (length (trim (js "SGVsbG8sIFdvcmxkIQ=="))) mod 4 = 0 /\
  exists body,
    includes (cu "=") body = false /\
    (trim (js "SGVsbG8sIFdvcmxkIQ==") = body ++ [cu "="]
     \/ trim (js "SGVsbG8sIFdvcmxkIQ==") = body ++ [cu "="; cu "="]).
Proof.
  split; [reflexivity|]. split; [reflexivity|]. split; [reflexivity|].
  apply (@base64_padding_at_the_end (js "SGVsbG8sIFdvcmxkIQ==")); reflexivity.
Defined.
